(** * NexusConnect: the WebSocket signaling hub and the call coordinator

    A shallow embedding of the real-time layer of [server/routes.ts]
    (the [clients] registry, [broadcastToUsers], [broadcastToConversation],
    the [message] and [close] handlers of the WebSocket server, and the
    read-receipt route) together with the part of [server/storage.ts] and
    [shared/schema.ts] these handlers call.

    Modelling conventions.
    - A [WebSocket] object is a handle [nat]; its [readyState] lives in the
      hub state.  The [clients] map is a [gmap string nat].
    - Every handler runs as one atomic step: the interleaving of two
      handlers at an [await] is outside the model.
    - [new Date()] is the step's [now] (milliseconds), and so is the
      database's [now()] where a column defaults to it; the identifier
      that [gen_random_uuid()] gives a new call is the step's [uuid].
    - Database tables are finite maps and lists holding the columns the
      handlers read or write.  Primary keys and the [references] of
      [schema.ts] are checked on insert, and a number written to an
      [integer] column must be in its range; a violation raises, as the
      driver does.
    - Payload fields have the types of the wire protocol; a field may be
      absent.  Strings follow JavaScript truthiness (the empty string is
      falsy). *)

From stdpp Require Import gmap strings list fin_maps sorting.
From Stdlib Require Import ZArith Lia.

Local Open Scope string_scope.
Local Open Scope list_scope.

(** ** Schema ([shared/schema.ts]) *)

Inductive user_status := online | away | busy | offline.
Inductive call_type := voice | video.
Inductive call_status := initiated | ringing | active | ended | missed | declined.
Inductive ready_state := CONNECTING | OPEN | CLOSING | CLOSED.

#[global] Instance user_status_eq_dec : EqDecision user_status.
Proof. solve_decision. Defined.
#[global] Instance call_type_eq_dec : EqDecision call_type.
Proof. solve_decision. Defined.
#[global] Instance call_status_eq_dec : EqDecision call_status.
Proof. solve_decision. Defined.
#[global] Instance ready_state_eq_dec : EqDecision ready_state.
Proof. solve_decision. Defined.

(** A row of [users], keyed by [id] in the table. *)
Record User := mkUser {
  u_username : string;
  u_status : user_status;
  u_lastSeenAt : option Z;
  u_updatedAt : option Z;
}.

(** A row of [conversation_participants]. *)
Record Participant := mkParticipant {
  cp_conversationId : string;
  cp_userId : string;
  cp_isTyping : bool;
  cp_typingUpdatedAt : option Z;
}.

(** A row of [messages]. *)
Record Message := mkMessage {
  m_conversationId : string;
  m_senderId : string;
}.

(** A row of [message_receipts]. *)
Record Receipt := mkReceipt {
  r_messageId : string;
  r_userId : string;
  r_readAt : option Z;
}.

(** A row of [calls], keyed by [id] in the table: [call.id] is the key the
    row was inserted or fetched by. *)
Record Call := mkCall {
  c_conversationId : option string;
  c_initiatorId : string;
  c_type : call_type;
  c_status : call_status;
  c_startedAt : option Z;
  c_endedAt : option Z;
  c_duration : option Z;
}.

(** A row of [call_participants]. *)
Record CallParticipant := mkCallParticipant {
  k_callId : string;
  k_userId : string;
  k_joinedAt : option Z;
  k_leftAt : option Z;
  k_isMuted : bool;
  k_isVideoOff : bool;
  k_isScreenSharing : bool;
}.

(** [Partial<Call>] as the handlers build it. *)
Record CallPatch := mkCallPatch {
  set_status : option call_status;
  set_startedAt : option Z;
  set_endedAt : option Z;
  set_duration : option Z;
}.

(** [Partial<CallParticipant>] as the toggle handler builds it. *)
Record MediaPatch := mkMediaPatch {
  set_isMuted : option bool;
  set_isVideoOff : option bool;
  set_isScreenSharing : option bool;
}.

(** The tables.  [conversations] holds the ids of the table's rows, in
    table order, and [lastActivityAt] their [last_activity_at] column (no
    entry for [NULL]). *)
Record Storage := mkStorage {
  users : gmap string User;
  conversations : list string;
  lastActivityAt : gmap string Z;
  conversationParticipants : list Participant;
  messages : gmap string Message;
  messageReceipts : list Receipt;
  calls : gmap string Call;
  callParticipants : list CallParticipant;
}.

(** ** The wire protocol *)

(** The payload of an inbound frame. *)
Record Payload := mkPayload {
  p_userId : option string;
  p_conversationId : option string;
  p_isTyping : option bool;
  p_type : option call_type;
  p_callId : option string;
  p_targetUserId : option string;
  p_candidate : option string;
  p_offer : option string;
  p_answer : option string;
  p_isMuted : option bool;
  p_isVideoOff : option bool;
  p_isScreenSharing : option bool;
}.

Definition empty_payload : Payload :=
  mkPayload None None None None None None None None None None None None.

(** What [JSON.parse] makes of a frame, as far as the handler looks at it:
    [null], or a value with an optional string [type] and an optional
    object [payload] (a value that is no object has neither). *)
Inductive Parsed :=
  | PNull
  | PValue (type : option string) (payload : option Payload).

(** The payloads of the outbound events. *)
Inductive OutPayload :=
  | UserStatusChanged (userId : string) (status : user_status)
  | TypingStatus (conversationId userId : string) (isTyping : option bool)
  | IncomingCall (callId : string) (call : Call) (initiator : option User)
  | CallAccepted (callId userId : string)
  | CallDeclined (callId userId : string)
  | CallEnded (callId endedBy : string) (duration : Z)
  | ParticipantMediaChanged (callId : option string) (userId : string) (rest : Payload)
  | UserTyping (userId : string) (isTyping : bool)
  | IceCandidate (fromUserId candidate : string)
  | WebrtcOffer (fromUserId offer : string)
  | WebrtcAnswer (fromUserId answer : string)
  | MessageRead (messageId conversationId userId : string) (user : option User) (readAt : Z).

Record Envelope := mkEnvelope { e_type : string; e_payload : OutPayload }.

(** What is thrown: the two JavaScript errors the handler can raise
    itself, a plain [new Error(message)] of the query builder, and an error
    of the database, named by the constraint it violates or by its
    condition. *)
Inductive Error :=
  | SyntaxError
  | TypeError
  | PlainError (message : string)
  | DbError (detail : string).

(** ** Hub state and effects *)

Record Hub := mkHub {
  clients : gmap string nat;
  readyState : gmap nat ready_state;
  userId_of : gmap nat string;
  storage : Storage;
}.

(** What a handler does to the outside world, in order: [Send] is a frame
    written to a socket, [ConsoleError] a line of the error log, and
    [Broadcast] the record of a call of [broadcastToUsers] with its
    recipient list. *)
Inductive Effect :=
  | Broadcast (userIds : list string) (frame : Envelope)
  | Send (client : nat) (frame : Envelope)
  | ConsoleError (error : Error).

(** A computation reads and writes the hub, emits effects, and returns or
    throws.  The state reached and the effects emitted before a throw
    stay. *)
Definition Exec (A : Type) : Type := Hub -> Hub * list Effect * (Error + A).

Definition ret {A} (a : A) : Exec A := fun h => (h, [], inr a).

Definition bind {A B} (m : Exec A) (k : A -> Exec B) : Exec B :=
  fun h =>
    match m h with
    | (h1, t1, inl e) => (h1, t1, inl e)
    | (h1, t1, inr a) =>
        match k a h1 with
        | (h2, t2, r) => (h2, t1 ++ t2, r)
        end
    end.

Definition throw {A} (e : Error) : Exec A := fun h => (h, [], inl e).

Definition try_catch {A} (body : Exec A) (handler : Error -> Exec A) : Exec A :=
  fun h =>
    match body h with
    | (h1, t1, inl e) =>
        match handler e h1 with
        | (h2, t2, r) => (h2, t1 ++ t2, r)
        end
    | r => r
    end.

Definition emit (ef : Effect) : Exec unit := fun h => (h, [ef], inr tt).
Definition read {A} (f : Hub -> A) : Exec A := fun h => (h, [], inr (f h)).
Definition update (f : Hub -> Hub) : Exec unit := fun h => (f h, [], inr tt).

Notation "x <- m ;; k" := (bind m (fun x => k))
  (at level 20, m at level 99, k at level 200, only parsing).
Notation "m ;; k" := (bind m (fun _ => k))
  (at level 100, k at level 200, right associativity, only parsing).

Fixpoint forEach {A} (l : list A) (f : A -> Exec unit) : Exec unit :=
  match l with
  | [] => ret tt
  | x :: l' => f x ;; forEach l' f
  end.

Definition state_of {A} (r : Hub * list Effect * (Error + A)) : Hub := r.1.1.
Definition effects_of {A} (r : Hub * list Effect * (Error + A)) : list Effect := r.1.2.
Definition outcome_of {A} (r : Hub * list Effect * (Error + A)) : Error + A := r.2.

(** Field updates. *)
Definition with_clients (f : gmap string nat -> gmap string nat) (h : Hub) : Hub :=
  mkHub (f (clients h)) (readyState h) (userId_of h) (storage h).
Definition with_readyState (f : gmap nat ready_state -> gmap nat ready_state) (h : Hub) : Hub :=
  mkHub (clients h) (f (readyState h)) (userId_of h) (storage h).
Definition with_userId_of (f : gmap nat string -> gmap nat string) (h : Hub) : Hub :=
  mkHub (clients h) (readyState h) (f (userId_of h)) (storage h).
Definition with_storage (f : Storage -> Storage) (h : Hub) : Hub :=
  mkHub (clients h) (readyState h) (userId_of h) (f (storage h)).

Definition with_users (f : gmap string User -> gmap string User) (db : Storage) : Storage :=
  mkStorage (f (users db)) (conversations db) (lastActivityAt db)
    (conversationParticipants db)
    (messages db) (messageReceipts db) (calls db) (callParticipants db).
Definition with_conversationParticipants (f : list Participant -> list Participant)
    (db : Storage) : Storage :=
  mkStorage (users db) (conversations db) (lastActivityAt db)
    (f (conversationParticipants db))
    (messages db) (messageReceipts db) (calls db) (callParticipants db).
Definition with_messageReceipts (f : list Receipt -> list Receipt) (db : Storage) : Storage :=
  mkStorage (users db) (conversations db) (lastActivityAt db)
    (conversationParticipants db)
    (messages db) (f (messageReceipts db)) (calls db) (callParticipants db).
Definition with_calls (f : gmap string Call -> gmap string Call) (db : Storage) : Storage :=
  mkStorage (users db) (conversations db) (lastActivityAt db)
    (conversationParticipants db)
    (messages db) (messageReceipts db) (f (calls db)) (callParticipants db).
Definition with_callParticipants (f : list CallParticipant -> list CallParticipant)
    (db : Storage) : Storage :=
  mkStorage (users db) (conversations db) (lastActivityAt db)
    (conversationParticipants db)
    (messages db) (messageReceipts db) (calls db) (f (callParticipants db)).

(** ** The durable store ([DatabaseStorage] of [server/storage.ts]) *)

Definition getUser (id : string) : Exec (option User) :=
  read (fun h => users (storage h) !! id).

Definition updateUserStatus (id : string) (status : user_status) (now : Z) : Exec unit :=
  update (with_storage (with_users
    (alter (fun u => mkUser (u_username u) status (Some now) (Some now)) id))).

(** The rows of a conversation, each joined with its user; a row whose
    user is gone is dropped. *)
Definition participants_of (db : Storage) (conversationId : string)
    : list (Participant * User) :=
  omap (fun p => match users db !! cp_userId p with
                 | Some user => Some (p, user)
                 | None => None
                 end)
       (filter (fun p => cp_conversationId p = conversationId)
               (conversationParticipants db)).

Definition getParticipants (conversationId : string) : Exec (list (Participant * User)) :=
  read (fun h => participants_of (storage h) conversationId).

(** [ORDER BY last_activity_at DESC]: the later activity comes first, and
    [NULL] before every value.  Rows with equal activity come in the order
    the sort leaves them; the query fixes none. *)
Definition by_activity_desc (db : Storage) (a b : string) : Prop :=
  match lastActivityAt db !! a, lastActivityAt db !! b with
  | None, _ => True
  | Some _, None => False
  | Some x, Some y => (y <= x)%Z
  end.

#[global] Instance by_activity_desc_dec db a b : Decision (by_activity_desc db a b).
Proof.
  unfold by_activity_desc.
  destruct (lastActivityAt db !! a), (lastActivityAt db !! b); apply _.
Defined.

(** [getUserConversations]: the conversations the user takes part in,
    latest activity first, each with its participants. *)
Definition conversations_of (db : Storage) (userId : string)
    : list (string * list (Participant * User)) :=
  let conversationIds :=
    map cp_conversationId
        (filter (fun p => cp_userId p = userId) (conversationParticipants db)) in
  if decide (length conversationIds = 0%nat) then []
  else
    let conversationList :=
      merge_sort (by_activity_desc db)
        (filter (fun conv => conv ∈ conversationIds) (conversations db)) in
    map (fun conv => (conv, participants_of db conv)) conversationList.

Definition getUserConversations (userId : string)
    : Exec (list (string * list (Participant * User))) :=
  read (fun h => conversations_of (storage h) userId).

(** [set({ isTyping, typingUpdatedAt })]: an [undefined] [isTyping] leaves
    the column as it is. *)
Definition updateTypingStatus (conversationId userId : string) (isTyping : option bool)
    (now : Z) : Exec unit :=
  update (with_storage (with_conversationParticipants
    (map (fun p =>
       if decide (cp_conversationId p = conversationId /\ cp_userId p = userId)
       then mkParticipant (cp_conversationId p) (cp_userId p)
              (default (cp_isTyping p) isTyping) (Some now)
       else p)))).

Definition getMessage (id : string) : Exec (option Message) :=
  read (fun h => messages (storage h) !! id).

Definition isUserInConversation (conversationId userId : string) : Exec bool :=
  read (fun h =>
    match filter (fun p => cp_conversationId p = conversationId /\ cp_userId p = userId)
                 (conversationParticipants (storage h)) with
    | [] => false
    | _ :: _ => true
    end).

(** The [UPDATE ... WHERE id = existing[0].id] of [markMessageRead]: the
    first receipt of the pair is stamped, when it has no [readAt] yet. *)
Fixpoint stamp_first (messageId userId : string) (now : Z) (rows : list Receipt)
    : list Receipt :=
  match rows with
  | [] => []
  | r :: rows' =>
      if decide (r_messageId r = messageId /\ r_userId r = userId)
      then match r_readAt r with
           | None => mkReceipt (r_messageId r) (r_userId r) (Some now) :: rows'
           | Some _ => r :: rows'
           end
      else r :: stamp_first messageId userId now rows'
  end.

Definition markMessageRead (messageId userId : string) (now : Z) : Exec unit :=
  existing <- read (fun h =>
      filter (fun r => r_messageId r = messageId /\ r_userId r = userId)
             (messageReceipts (storage h))) ;;
  match existing with
  | _ :: _ =>
      update (with_storage (with_messageReceipts (stamp_first messageId userId now)))
  | [] =>
      known_message <- read (fun h => messages (storage h) !! messageId) ;;
      known_user <- read (fun h => users (storage h) !! userId) ;;
      match known_message, known_user with
      | Some _, Some _ =>
          update (with_storage (with_messageReceipts
            (fun rows => rows ++ [mkReceipt messageId userId (Some now)])))
      | None, _ => throw (DbError "message_receipts_message_id_fkey")
      | _, None => throw (DbError "message_receipts_user_id_fkey")
      end
  end.

Definition getCall (id : string) : Exec (option Call) :=
  read (fun h => calls (storage h) !! id).

(** [createCall] with the columns the handlers pass; [type] defaults to
    [voice], the timestamps and the duration to [NULL]. *)
Definition createCall (conversationId initiatorId : string) (type : option call_type)
    (status : call_status) (uuid : string) : Exec Call :=
  taken <- read (fun h => calls (storage h) !! uuid) ;;
  known_conversation <- read (fun h =>
      bool_decide (conversationId ∈ conversations (storage h))) ;;
  known_user <- read (fun h => users (storage h) !! initiatorId) ;;
  match taken, known_conversation, known_user with
  | Some _, _, _ => throw (DbError "calls_pkey")
  | None, false, _ => throw (DbError "calls_conversation_id_fkey")
  | None, true, None => throw (DbError "calls_initiator_id_fkey")
  | None, true, Some _ =>
      let call := mkCall (Some conversationId) initiatorId (default voice type)
                         status None None None in
      update (with_storage (with_calls (insert uuid call))) ;;
      ret call
  end.

(** The range of an [integer] column. *)
Definition int4 (n : Z) : Prop := (-2147483648 <= n <= 2147483647)%Z.

#[global] Instance int4_dec n : Decision (int4 n).
Proof. unfold int4. apply _. Defined.

(** A number bound for an [integer] column: the database raises on one
    outside the range, before it looks at any row. *)
Definition integer_column (v : option Z) : Exec unit :=
  match v with
  | Some n =>
      if decide (int4 n) then ret tt else throw (DbError "numeric_value_out_of_range")
  | None => ret tt
  end.

Definition apply_patch (data : CallPatch) (c : Call) : Call :=
  mkCall (c_conversationId c) (c_initiatorId c) (c_type c)
    (default (c_status c) (set_status data))
    (match set_startedAt data with Some t => Some t | None => c_startedAt c end)
    (match set_endedAt data with Some t => Some t | None => c_endedAt c end)
    (match set_duration data with Some d => Some d | None => c_duration c end).

Definition updateCall (id : string) (data : CallPatch) : Exec (option Call) :=
  integer_column (set_duration data) ;;
  update (with_storage (with_calls (alter (apply_patch data) id))) ;;
  read (fun h => calls (storage h) !! id).

Definition addCallParticipant (callId userId : string) (now : Z) : Exec CallParticipant :=
  known_call <- read (fun h => calls (storage h) !! callId) ;;
  known_user <- read (fun h => users (storage h) !! userId) ;;
  match known_call, known_user with
  | None, _ => throw (DbError "call_participants_call_id_fkey")
  | Some _, None => throw (DbError "call_participants_user_id_fkey")
  | Some _, Some _ =>
      let participant := mkCallParticipant callId userId (Some now) None false false false in
      update (with_storage (with_callParticipants (fun rows => rows ++ [participant]))) ;;
      ret participant
  end.

Definition apply_media (data : MediaPatch) (k : CallParticipant) : CallParticipant :=
  mkCallParticipant (k_callId k) (k_userId k) (k_joinedAt k) (k_leftAt k)
    (default (k_isMuted k) (set_isMuted data))
    (default (k_isVideoOff k) (set_isVideoOff data))
    (default (k_isScreenSharing k) (set_isScreenSharing data)).

(** [set(data)] drops the fields that are [undefined] and throws when
    none is left, before any query runs. *)
Definition updateCallParticipant (callId userId : string)
    (data : MediaPatch) : Exec unit :=
  match set_isMuted data, set_isVideoOff data, set_isScreenSharing data with
  | None, None, None => throw (PlainError "No values to set")
  | _, _, _ =>
      update (with_storage (with_callParticipants
        (map (fun k =>
           if decide (k_callId k = callId /\ k_userId k = userId)
           then apply_media data k
           else k))))
  end.

(** ** The session registry and the broadcasts ([server/routes.ts]) *)

Definition ws_send (client : nat) (frame : Envelope) : Exec unit :=
  emit (Send client frame).

(** [broadcastToUsers].  The [Broadcast] effect records the call and its
    recipient list; each [Send] is one [client.send]. *)
Definition broadcastToUsers (userIds : list string) (type : string) (payload : OutPayload)
    : Exec unit :=
  emit (Broadcast userIds (mkEnvelope type payload)) ;;
  forEach userIds (fun userId =>
    client <- read (fun h => clients h !! userId) ;;
    match client with
    | Some client =>
        state <- read (fun h => readyState h !! client) ;;
        if decide (state = Some OPEN)
        then ws_send client (mkEnvelope type payload)
        else ret tt
    | None => ret tt
    end).

Definition recipients (participants : list (Participant * User))
    (excludeUserId : option string) : list string :=
  filter (fun id => Some id <> excludeUserId)
         (map (fun p => cp_userId p.1) participants).

Definition broadcastToConversation (conversationId type : string) (payload : OutPayload)
    (excludeUserId : option string) : Exec unit :=
  participants <- getParticipants conversationId ;;
  let userIds := recipients participants excludeUserId in
  broadcastToUsers userIds type payload.

(** ** JavaScript values *)

(** The string a truthy value holds. *)
Definition truthy (v : option string) : option string :=
  match v with
  | Some s => if decide (s = "") then None else Some s
  | None => None
  end.

(** [payload.field]: a [TypeError] when [payload] is [undefined] or [null]. *)
Definition prop {A} (payload : option Payload) (field : Payload -> option A)
    : Exec (option A) :=
  match payload with
  | Some p => ret (field p)
  | None => throw TypeError
  end.

(** [if (userId && payload.field) { ... }]: the payload is not touched
    when [userId] is falsy. *)
Definition if_bound_and (ws : nat) (payload : option Payload)
    (field : Payload -> option string)
    (body : string -> string -> Payload -> Exec unit) : Exec unit :=
  userId <- read (fun h => userId_of h !! ws) ;;
  match truthy userId, payload with
  | None, _ => ret tt
  | Some _, None => throw TypeError
  | Some userId, Some p =>
      match truthy (field p) with
      | Some v => body userId v p
      | None => ret tt
      end
  end.

(** [contactIds.add] on a [Set], which keeps insertion order. *)
Definition set_add (s : list string) (x : string) : list string :=
  if decide (x ∈ s) then s else s ++ [x].

Definition contacts_of (userId : string)
    (convs : list (string * list (Participant * User))) : list string :=
  foldl (fun s conv =>
           foldl (fun s p =>
                    if decide (cp_userId p.1 <> userId)
                    then set_add s (cp_userId p.1) else s)
                 s conv.2)
        [] convs.

(** [userId = payload.userId] on the closure variable of a connection;
    an absent entry is [null] or [undefined]. *)
Definition assign (ws : nat) (v : option string) (m : gmap nat string) : gmap nat string :=
  match v with
  | Some s => <[ws := s]> m
  | None => delete ws m
  end.

(** ** The cases of the message handler *)

Section Cases.
Variable ws : nat.
Variable payload : option Payload.
Variable now : Z.
Variable uuid : string.

Definition case_user_online : Exec unit :=
  userId <- prop payload p_userId ;;
  update (with_userId_of (assign ws userId)) ;;
  match truthy userId with
  | Some userId =>
      update (with_clients (insert userId ws)) ;;
      updateUserStatus userId online now ;;
      convs <- getUserConversations userId ;;
      let contactIds := contacts_of userId convs in
      broadcastToUsers contactIds "user-status-changed"
        (UserStatusChanged userId online)
  | None => ret tt
  end.

Definition case_typing : Exec unit :=
  if_bound_and ws payload p_conversationId (fun userId conversationId p =>
    updateTypingStatus conversationId userId (p_isTyping p) now ;;
    broadcastToConversation conversationId "typing-status"
      (TypingStatus conversationId userId (p_isTyping p)) (Some userId)).

Definition case_start_call : Exec unit :=
  if_bound_and ws payload p_conversationId (fun userId conversationId p =>
    call <- createCall conversationId userId (p_type p) initiated uuid ;;
    addCallParticipant uuid userId now ;;
    initiator <- getUser userId ;;
    broadcastToConversation conversationId "incoming-call"
      (IncomingCall uuid call initiator) (Some userId)).

Definition case_accept_call : Exec unit :=
  if_bound_and ws payload p_callId (fun userId callId p =>
    call <- getCall callId ;;
    match call with
    | Some call =>
        addCallParticipant callId userId now ;;
        updateCall callId (mkCallPatch (Some active) (Some now) None None) ;;
        match truthy (c_conversationId call) with
        | Some conversationId =>
            broadcastToConversation conversationId "call-accepted"
              (CallAccepted callId userId) None
        | None => ret tt
        end
    | None => ret tt
    end).

Definition case_decline_call : Exec unit :=
  if_bound_and ws payload p_callId (fun userId callId p =>
    call <- getCall callId ;;
    match call with
    | Some call =>
        updateCall callId (mkCallPatch (Some declined) None None None) ;;
        match truthy (c_conversationId call) with
        | Some conversationId =>
            broadcastToConversation conversationId "call-declined"
              (CallDeclined callId userId) None
        | None => ret tt
        end
    | None => ret tt
    end).

Definition case_end_call : Exec unit :=
  if_bound_and ws payload p_callId (fun userId callId p =>
    call <- getCall callId ;;
    match call with
    | Some call =>
        let endedAt := now in
        let duration :=
          match c_startedAt call with
          | Some startedAt => ((endedAt - startedAt) / 1000)%Z
          | None => 0%Z
          end in
        updateCall callId (mkCallPatch (Some ended) None (Some endedAt) (Some duration)) ;;
        match truthy (c_conversationId call) with
        | Some conversationId =>
            broadcastToConversation conversationId "call-ended"
              (CallEnded callId userId duration) None
        | None => ret tt
        end
    | None => ret tt
    end).

Definition case_toggle (type : string) : Exec unit :=
  if_bound_and ws payload p_callId (fun userId callId p =>
    updateCallParticipant callId userId
      (mkMediaPatch
         (if decide (type = "toggle-mute") then p_isMuted p else None)
         (if decide (type = "toggle-video") then p_isVideoOff p else None)
         (if decide (type = "toggle-screen-share") then p_isScreenSharing p else None)) ;;
    call <- getCall callId ;;
    match call with
    | Some call =>
        match truthy (c_conversationId call) with
        | Some conversationId =>
            broadcastToConversation conversationId "participant-media-changed"
              (ParticipantMediaChanged (p_callId p) userId p) (Some userId)
        | None => ret tt
        end
    | None => ret tt
    end).

(** The second [case "typing":] of the switch. *)
Definition case_typing_2 : Exec unit :=
  if_bound_and ws payload p_conversationId (fun userId conversationId p =>
    let isTyping := bool_decide (p_isTyping p = Some true) in
    updateTypingStatus conversationId userId (Some isTyping) now ;;
    broadcastToConversation conversationId "user-typing"
      (UserTyping userId isTyping) (Some userId)).

(** [if (userId && payload.targetUserId && payload.candidate)], and the
    same for [offer] and [answer]: the blob is relayed when it is truthy. *)
Definition case_relay (type : string) (field : Payload -> option string)
    (wrap : string -> string -> OutPayload) : Exec unit :=
  if_bound_and ws payload p_targetUserId (fun userId targetUserId p =>
    match truthy (field p) with
    | Some blob => broadcastToUsers [targetUserId] type (wrap userId blob)
    | None => ret tt
    end).

(** The case clauses in source order; every body ends in [break]. *)
Definition cases : list (string * Exec unit) :=
  [ ("user-online", case_user_online);
    ("typing", case_typing);
    ("start-call", case_start_call);
    ("accept-call", case_accept_call);
    ("decline-call", case_decline_call);
    ("end-call", case_end_call);
    ("toggle-mute", case_toggle "toggle-mute");
    ("toggle-video", case_toggle "toggle-video");
    ("toggle-screen-share", case_toggle "toggle-screen-share");
    ("typing", case_typing_2);
    ("ice-candidate", case_relay "ice-candidate" p_candidate IceCandidate);
    ("webrtc-offer", case_relay "webrtc-offer" p_offer WebrtcOffer);
    ("webrtc-answer", case_relay "webrtc-answer" p_answer WebrtcAnswer) ].
End Cases.

(** [switch (type)]: the first clause whose label is strictly equal to
    [type] runs; none runs when there is no such clause. *)
Fixpoint switch (type : option string) (clauses : list (string * Exec unit)) : Exec unit :=
  match clauses with
  | [] => ret tt
  | (label, body) :: clauses' =>
      if decide (type = Some label) then body else switch type clauses'
  end.

Definition JSON_parse (data : option Parsed) : Exec Parsed :=
  match data with
  | Some v => ret v
  | None => throw SyntaxError
  end.

(** [const { type, payload } = message]. *)
Definition destructure (message : Parsed) : Exec (option string * option Payload) :=
  match message with
  | PNull => throw TypeError
  | PValue type payload => ret (type, payload)
  end.

(** [ws.on("message", ...)]; [data = None] is a frame that is no JSON. *)
Definition dispatch (ws : nat) (data : option Parsed) (now : Z) (uuid : string)
    : Exec unit :=
  message <- JSON_parse data ;;
  tp <- destructure message ;;
  switch tp.1 (cases ws tp.2 now uuid).

Definition on_message (ws : nat) (data : option Parsed) (now : Z) (uuid : string)
    : Exec unit :=
  try_catch (dispatch ws data now uuid) (fun error => emit (ConsoleError error)).

(** [ws.on("close", ...)]. *)
Definition on_close (ws : nat) (now : Z) : Exec unit :=
  userId <- read (fun h => userId_of h !! ws) ;;
  match truthy userId with
  | Some userId =>
      update (with_clients (delete userId)) ;;
      updateUserStatus userId offline now ;;
      convs <- getUserConversations userId ;;
      let contactIds := contacts_of userId convs in
      broadcastToUsers contactIds "user-status-changed"
        (UserStatusChanged userId offline)
  | None => ret tt
  end.

(** [POST /api/messages/:id/read] for the authenticated [userId]; the
    result is the HTTP status. *)
Definition mark_read (userId messageId : string) (now : Z) : Exec nat :=
  try_catch
    (message <- getMessage messageId ;;
     match message with
     | None => ret 404%nat
     | Some message =>
         isInConv <- isUserInConversation (m_conversationId message) userId ;;
         if negb isInConv then ret 403%nat
         else if decide (m_senderId message = userId) then ret 200%nat
         else
           markMessageRead messageId userId now ;;
           reader <- getUser userId ;;
           broadcastToConversation (m_conversationId message) "message-read"
             (MessageRead messageId (m_conversationId message) userId reader now)
             None ;;
           ret 200%nat
     end)
    (fun error => emit (ConsoleError error) ;; ret 500%nat).

(** ** The hub as a transition system *)

Inductive Event :=
  | Connection (ws : nat)
  | Frame (ws : nat) (data : option Parsed) (now : Z) (uuid : string)
  | Close (ws : nat) (now : Z)
  | MarkRead (userId messageId : string) (now : Z).

(** A new connection is open and its [userId] is [null]; a closing one is
    [CLOSED] when its close handler runs. *)
Definition handle (ev : Event) : Exec unit :=
  match ev with
  | Connection ws =>
      update (with_readyState (insert ws OPEN)) ;;
      update (with_userId_of (delete ws))
  | Frame ws data now uuid => on_message ws data now uuid
  | Close ws now =>
      update (with_readyState (insert ws CLOSED)) ;;
      on_close ws now
  | MarkRead userId messageId now =>
      mark_read userId messageId now ;; ret tt
  end.

Definition step (ev : Event) (h : Hub) : Hub := state_of (handle ev h).

Definition run (evs : list Event) (h : Hub) : Hub := foldl (fun h ev => step ev h) h evs.

Definition clock (ev : Event) : option Z :=
  match ev with
  | Connection _ => None
  | Frame _ _ now _ => Some now
  | Close _ now => Some now
  | MarkRead _ _ now => Some now
  end.

(** Observations on effects. *)
Definition sends (t : list Effect) : list (nat * Envelope) :=
  omap (fun ef => match ef with Send c f => Some (c, f) | _ => None end) t.

Definition broadcasts (t : list Effect) : list (list string * Envelope) :=
  omap (fun ef => match ef with Broadcast ids f => Some (ids, f) | _ => None end) t.

(** The sockets a broadcast to [userIds] writes to: the registered ones
    that are open. *)
Definition delivered (h : Hub) (userIds : list string) : list nat :=
  omap (fun userId =>
          match clients h !! userId with
          | Some client =>
              if decide (readyState h !! client = Some OPEN) then Some client else None
          | None => None
          end)
       userIds.

(** The duration [end-call] computes for a call at [now]. *)
Definition duration_at (now : Z) (c : Call) : Z :=
  match c_startedAt c with
  | Some startedAt => ((now - startedAt) / 1000)%Z
  | None => 0%Z
  end.

(** What one frame of type [label], handled at [now], can do to the row of
    a call. *)
Definition call_step (label : string) (now : Z) (pre post : option Call) : Prop :=
  match pre, post with
  | None, None => True
  | None, Some c' =>
      label = "start-call" /\ c_status c' = initiated /\ c_startedAt c' = None
  | Some _, None => False
  | Some c, Some c' =>
      c' = c \/
      (label = "accept-call" /\
       c' = apply_patch (mkCallPatch (Some active) (Some now) None None) c) \/
      (label = "decline-call" /\
       c' = apply_patch (mkCallPatch (Some declined) None None None) c) \/
      (label = "end-call" /\
       c' = apply_patch
              (mkCallPatch (Some ended) None (Some now) (Some (duration_at now c))) c)
  end.

Definition frame_of (ef : Effect) : option Envelope :=
  match ef with
  | Broadcast _ f => Some f
  | Send _ f => Some f
  | ConsoleError _ => None
  end.

Definition empty_storage : Storage := mkStorage ∅ [] ∅ [] ∅ [] ∅ [].
Definition empty_hub : Hub := mkHub ∅ ∅ ∅ empty_storage.

Definition frame_type (ev : Event) : option string :=
  match ev with
  | Frame _ (Some (PValue type _)) _ _ => type
  | _ => None
  end.

(** What one event can do to the status of a call. *)
Definition status_step (type : option string) (pre post : option call_status) : Prop :=
  match pre, post with
  | None, None => True
  | None, Some s' => type = Some "start-call" /\ s' = initiated
  | Some _, None => False
  | Some s, Some s' =>
      s' = s \/
      (type = Some "accept-call" /\ s' = active) \/
      (type = Some "decline-call" /\ s' = declined) \/
      (type = Some "end-call" /\ s' = ended)
  end.

(** The clauses of [cases] that can run: all but the second ["typing"]. *)
Definition live_cases (ws : nat) (payload : option Payload) (now : Z) (uuid : string)
    : list (string * Exec unit) :=
  [ ("user-online", case_user_online ws payload now);
    ("typing", case_typing ws payload now);
    ("start-call", case_start_call ws payload now uuid);
    ("accept-call", case_accept_call ws payload now);
    ("decline-call", case_decline_call ws payload);
    ("end-call", case_end_call ws payload now);
    ("toggle-mute", case_toggle ws payload "toggle-mute");
    ("toggle-video", case_toggle ws payload "toggle-video");
    ("toggle-screen-share", case_toggle ws payload "toggle-screen-share");
    ("ice-candidate", case_relay ws payload "ice-candidate" p_candidate IceCandidate);
    ("webrtc-offer", case_relay ws payload "webrtc-offer" p_offer WebrtcOffer);
    ("webrtc-answer", case_relay ws payload "webrtc-answer" p_answer WebrtcAnswer) ].

(** No frame of type [type] among the effects. *)
Definition silent_on (type : string) (t : list Effect) : Prop :=
  forall ef f, ef ∈ t -> frame_of ef = Some f -> e_type f <> type.

(** ** A two-party scenario

    Alice and Bob share the conversation [c1]; Alice has sent [m1]. *)
Module Scenario.
Definition alice : User := mkUser "alice" offline None None.
Definition bob : User := mkUser "bob" offline None None.

Definition db : Storage :=
  mkStorage (<["A" := alice]> (<["B" := bob]> ∅)) ["c1"] (<["c1" := 500%Z]> ∅)
    [mkParticipant "c1" "A" false None; mkParticipant "c1" "B" false None]
    (<["m1" := mkMessage "c1" "A"]> ∅) [] ∅ [].

Definition hub : Hub := mkHub ∅ ∅ ∅ db.

Definition user_online (userId : string) : Payload :=
  mkPayload (Some userId) None None None None None None None None None None None.
Definition in_conversation (conversationId : string) (isTyping : option bool) : Payload :=
  mkPayload None (Some conversationId) isTyping None None None None None None None None None.
Definition on_call (callId : string) : Payload :=
  mkPayload None None None None (Some callId) None None None None None None None.

Definition frame (ws : nat) (type : string) (p : Payload) (now : Z) : Event :=
  Frame ws (Some (PValue (Some type) (Some p))) now "k1".

(** Both connect and bind; Alice starts the call [k1]. *)
Definition ringing_events : list Event :=
  [ Connection 1; Connection 2;
    frame 1 "user-online" (user_online "A") 1000;
    frame 2 "user-online" (user_online "B") 2000;
    frame 1 "start-call" (in_conversation "c1" None) 3000 ].

Definition ringing_hub : Hub := run ringing_events hub.

(** Bob declines. *)
Definition declined_hub : Hub :=
  step (frame 2 "decline-call" (on_call "k1") 4000) ringing_hub.
End Scenario.

(** ** More of the durable store *)

(** [removeParticipant] and [kickParticipant]: the same [DELETE]. *)
Definition removeParticipant (conversationId userId : string) : Exec unit :=
  update (with_storage (with_conversationParticipants
    (filter (fun p => ~ (cp_conversationId p = conversationId /\ cp_userId p = userId))))).

Definition kickParticipant (conversationId userId : string) : Exec unit :=
  update (with_storage (with_conversationParticipants
    (filter (fun p => ~ (cp_conversationId p = conversationId /\ cp_userId p = userId))))).

(** [getMessageReadBy]: the stamped receipts of a message, each with its
    reader; a receipt whose reader is gone is dropped. *)
Definition read_by (db : Storage) (messageId : string) : list (User * Z) :=
  omap (fun r =>
          match users db !! r_userId r, r_readAt r with
          | Some user, Some readAt => Some (user, readAt)
          | _, _ => None
          end)
       (filter (fun r => r_messageId r = messageId /\ r_readAt r <> None)
               (messageReceipts db)).

Definition getMessageReadBy (messageId : string) : Exec (list (User * Z)) :=
  read (fun h => read_by (storage h) messageId).

(** ** Message reactions

    The table [message_reactions], beside the store the hub uses. *)

Record Reaction := mkReaction {
  x_messageId : string;
  x_userId : string;
  x_emoji : string;
}.

Record ReactionCount := mkReactionCount {
  rc_emoji : string;
  rc_count : nat;
  rc_userReacted : bool;
}.

Definition same_reaction (messageId userId emoji : string) (r : Reaction) : Prop :=
  x_messageId r = messageId /\ x_userId r = userId /\ x_emoji r = emoji.

#[global] Instance same_reaction_dec messageId userId emoji r :
  Decision (same_reaction messageId userId emoji r).
Proof. unfold same_reaction. apply _. Defined.

(** [addReaction]: the reaction the user already has, or a new row. *)
Definition addReaction (db : Storage) (messageId userId emoji : string)
    (table : list Reaction) : Error + (list Reaction * Reaction) :=
  match filter (same_reaction messageId userId emoji) table with
  | existing :: _ => inr (table, existing)
  | [] =>
      match messages db !! messageId, users db !! userId with
      | None, _ => inl (DbError "message_reactions_message_id_fkey")
      | Some _, None => inl (DbError "message_reactions_user_id_fkey")
      | Some _, Some _ =>
          let reaction := mkReaction messageId userId emoji in
          inr (table ++ [reaction], reaction)
      end
  end.

Definition removeReaction (messageId userId emoji : string) (table : list Reaction)
    : list Reaction :=
  filter (fun r => ~ same_reaction messageId userId emoji r) table.

(** One more row of a [GROUP BY emoji]: groups come in the order of
    their first row. *)
Fixpoint count_row (emoji : string) (groups : list (string * nat))
    : list (string * nat) :=
  match groups with
  | [] => [(emoji, 1%nat)]
  | (e, n) :: groups' =>
      if decide (e = emoji) then (e, S n) :: groups'
      else (e, n) :: count_row emoji groups'
  end.

Definition group_by_emoji (rows : list Reaction) : list (string * nat) :=
  foldl (fun groups r => count_row (x_emoji r) groups) [] rows.

Definition getMessageReactions (messageId : string) (table : list Reaction)
    : list ReactionCount :=
  map (fun g => mkReactionCount g.1 g.2 false)
      (group_by_emoji (filter (fun r => x_messageId r = messageId) table)).

(** ** Invite links

    The table [conversation_invite_links], beside the store the hub
    uses.  The [token] that [crypto.randomBytes] gives and the [id] of a
    new link are inputs; [role] is not among the columns kept of a
    participant.  [isActive] is a boolean: a [NULL] there is falsy, as
    [false] is. *)

Record InviteLink := mkInviteLink {
  l_id : string;
  l_conversationId : string;
  l_token : string;
  l_createdById : string;
  l_expiresAt : option Z;
  l_maxUses : option Z;
  l_useCount : option Z;
  l_isActive : bool;
}.

Record InviteStore := mkInviteStore {
  i_db : Storage;
  i_links : list InviteLink;
}.

(** [value || null] on a number: [0] is falsy. *)
Definition or_null (v : option Z) : option Z :=
  match v with
  | Some n => if decide (n = 0%Z) then None else Some n
  | None => None
  end.

(** Whether a value bound for an [integer] column is in its range. *)
Definition fits_int4 (v : option Z) : bool :=
  match v with
  | Some n => bool_decide (int4 n)
  | None => true
  end.

Definition createInviteLink (conversationId createdById : string)
    (expiresAt maxUses : option Z) (uuid token : string) (s : InviteStore)
    : Error + (InviteStore * InviteLink) :=
  if negb (fits_int4 (or_null maxUses)) then
    inl (DbError "numeric_value_out_of_range")
  else if bool_decide (uuid ∈ map l_id (i_links s)) then
    inl (DbError "conversation_invite_links_pkey")
  else if bool_decide (token ∈ map l_token (i_links s)) then
    inl (DbError "conversation_invite_links_token_unique")
  else if negb (bool_decide (conversationId ∈ conversations (i_db s))) then
    inl (DbError "conversation_invite_links_conversation_id_fkey")
  else
    match users (i_db s) !! createdById with
    | None => inl (DbError "conversation_invite_links_created_by_id_fkey")
    | Some _ =>
        let inviteLink :=
          mkInviteLink uuid conversationId token createdById expiresAt
                       (or_null maxUses) (Some 0%Z) true in
        inr (mkInviteStore (i_db s) (i_links s ++ [inviteLink]), inviteLink)
    end.

Definition getInviteLinkByToken (token : string) (s : InviteStore) : option InviteLink :=
  head (filter (fun l => l_token l = token) (i_links s)).

Definition deactivateInviteLink (linkId : string) (s : InviteStore) : InviteStore :=
  mkInviteStore (i_db s)
    (map (fun l =>
            if decide (l_id l = linkId)
            then mkInviteLink (l_id l) (l_conversationId l) (l_token l) (l_createdById l)
                   (l_expiresAt l) (l_maxUses l) (l_useCount l) false
            else l)
         (i_links s)).

Definition in_conversation (db : Storage) (conversationId userId : string) : bool :=
  match filter (fun p => cp_conversationId p = conversationId /\ cp_userId p = userId)
               (conversationParticipants db) with
  | [] => false
  | _ :: _ => true
  end.

(** [getConversation], as far as the caller looks: the id of the row. *)
Definition conversation_of (db : Storage) (conversationId : string) : option string :=
  if bool_decide (conversationId ∈ conversations db) then Some conversationId else None.

(** [maxUses !== null && useCount !== null && useCount >= maxUses]. *)
Definition exhausted (l : InviteLink) : bool :=
  match l_maxUses l, l_useCount l with
  | Some maxUses, Some useCount => bool_decide (maxUses <= useCount)%Z
  | _, _ => false
  end.

(** [expiresAt && new Date(expiresAt) < new Date()]. *)
Definition expired (l : InviteLink) (now : Z) : bool :=
  match l_expiresAt l with
  | Some expiresAt => bool_decide (expiresAt < now)%Z
  | None => false
  end.

(** [useInviteLink]: the conversation joined, or [None] for [null]. *)
Definition useInviteLink (token userId : string) (now : Z) (s : InviteStore)
    : Error + (InviteStore * option string) :=
  match getInviteLinkByToken token s with
  | None => inr (s, None)
  | Some inviteLink =>
      if negb (l_isActive inviteLink) then inr (s, None)
      else if expired inviteLink now then inr (s, None)
      else if exhausted inviteLink then inr (s, None)
      else if in_conversation (i_db s) (l_conversationId inviteLink) userId then
        inr (s, conversation_of (i_db s) (l_conversationId inviteLink))
      else if negb (bool_decide (l_conversationId inviteLink ∈ conversations (i_db s))) then
        inl (DbError "conversation_participants_conversation_id_fkey")
      else
        match users (i_db s) !! userId with
        | None => inl (DbError "conversation_participants_user_id_fkey")
        | Some _ =>
            let db' :=
              with_conversationParticipants
                (fun rows =>
                   rows ++ [mkParticipant (l_conversationId inviteLink) userId false None])
                (i_db s) in
            let links' :=
              map (fun l =>
                     if decide (l_id l = l_id inviteLink)
                     then mkInviteLink (l_id l) (l_conversationId l) (l_token l)
                            (l_createdById l) (l_expiresAt l) (l_maxUses l)
                            (Some (default 0 (or_null (l_useCount inviteLink)) + 1)%Z)
                            (l_isActive l)
                     else l)
                  (i_links s) in
            inr (mkInviteStore db' links',
                 conversation_of db' (l_conversationId inviteLink))
        end
  end.

(** ** Definitions for the further properties *)

(** Every frame written goes to a socket that is open in [h]. *)
Definition open_sends (h : Hub) (t : list Effect) : Prop :=
  forall c f, (c, f) ∈ sends t -> readyState h !! c = Some OPEN.

Definition participant_key (p : Participant) : string * string :=
  (cp_conversationId p, cp_userId p).

(** What identifies a call-participant row in the history: whose it is
    and when they joined and left. *)
Definition call_participant_key (k : CallParticipant)
    : string * string * option Z * option Z :=
  (k_callId k, k_userId k, k_joinedAt k, k_leftAt k).

(** What no event touches: who exists, which conversations exist, who takes
    part in them, and the messages. *)
Definition directory (db : Storage)
    : gset string * list string * list (string * string) * gmap string Message :=
  (dom (users db), conversations db,
   map participant_key (conversationParticipants db), messages db).

(** What a toggle of type [type] by [userId] on [callId] may do to a row. *)
Definition toggled (type userId callId : string) (flags : Payload)
    (k k' : CallParticipant) : Prop :=
  call_participant_key k' = call_participant_key k /\
  k_joinedAt k' = k_joinedAt k /\ k_leftAt k' = k_leftAt k /\
  (~ (k_callId k = callId /\ k_userId k = userId) -> k' = k) /\
  k_isMuted k'
    = (if decide (type = "toggle-mute" /\ k_callId k = callId /\ k_userId k = userId)
       then default (k_isMuted k) (p_isMuted flags) else k_isMuted k) /\
  k_isVideoOff k'
    = (if decide (type = "toggle-video" /\ k_callId k = callId /\ k_userId k = userId)
       then default (k_isVideoOff k) (p_isVideoOff flags) else k_isVideoOff k) /\
  k_isScreenSharing k'
    = (if decide (type = "toggle-screen-share" /\ k_callId k = callId /\ k_userId k = userId)
       then default (k_isScreenSharing k) (p_isScreenSharing flags)
       else k_isScreenSharing k).

(** Carol has a user row and a socket but no row in [c1]. *)
Definition carol_hub : Hub :=
  run [ Connection 3; Scenario.frame 3 "user-online" (Scenario.user_online "C") 3500 ]
      (with_storage (with_users (insert "C" (mkUser "carol" offline None None)))
                    Scenario.ringing_hub).

Definition reactions_db : Storage :=
  mkStorage (<["A" := mkUser "alice" offline None None]> ∅) ["c1"] ∅
    [mkParticipant "c1" "A" false None] (<["m1" := mkMessage "c1" "A"]> ∅) [] ∅ [].

(** The count a key has in the groups. *)
Fixpoint group_count (emoji : string) (groups : list (string * nat)) : option nat :=
  match groups with
  | [] => None
  | (e, n) :: groups' => if decide (e = emoji) then Some n else group_count emoji groups'
  end.

(** A link with a use count that has not passed its limit; a limit that
    is not positive allows no use. *)
Definition link_ok (l : InviteLink) : Prop :=
  exists c, l_useCount l = Some c /\
            forall m, l_maxUses l = Some m -> (c <= Z.max m 0)%Z.

Definition links_ok (s : InviteStore) : Prop :=
  NoDup (map l_id (i_links s)) /\ Forall link_ok (i_links s).

Definition invite_store : InviteStore :=
  mkInviteStore
    (with_users (insert "C" (mkUser "carol" offline None None)) Scenario.db)
    [mkInviteLink "l1" "c1" "t1" "A" (Some 9000%Z) (Some 1%Z) (Some 0%Z) true].

(** * Properties *)

(** ** Equations of the monad *)

Lemma bind_read {A B} (f : Hub -> A) (k : A -> Exec B) h :
  bind (read f) k h = k (f h) h.
Proof. unfold bind, read. by destruct (k (f h) h) as [[? ?] ?]. Qed.

Lemma bind_update {B} (f : Hub -> Hub) (k : unit -> Exec B) h :
  bind (update f) k h = k tt (f h).
Proof. unfold bind, update. by destruct (k tt (f h)) as [[? ?] ?]. Qed.

Lemma bind_ret {A B} (a : A) (k : A -> Exec B) h :
  bind (ret a) k h = k a h.
Proof. unfold bind, ret. by destruct (k a h) as [[? ?] ?]. Qed.

Lemma bind_throw {A B} (e : Error) (k : A -> Exec B) h :
  bind (throw e) k h = (h, [], inl e).
Proof. reflexivity. Qed.

Lemma bind_emit {B} (ef : Effect) (k : unit -> Exec B) h :
  bind (emit ef) k h = (state_of (k tt h), ef :: effects_of (k tt h), outcome_of (k tt h)).
Proof. unfold bind, emit. by destruct (k tt h) as [[? ?] ?]. Qed.

Lemma bind_assoc {A B C} (m : Exec A) (k : A -> Exec B) (k' : B -> Exec C) h :
  bind (bind m k) k' h = bind m (fun a => bind (k a) k') h.
Proof.
  unfold bind. destruct (m h) as [[h1 t1] [e|a]]; [done|].
  destruct (k a h1) as [[h2 t2] [e|b]]; [done|].
  destruct (k' b h2) as [[h3 t3] r]. by rewrite app_assoc.
Qed.

(** ** The registry and the broadcasts *)

Lemma forEach_deliver h userIds frame :
  forEach userIds (fun userId =>
    client <- read (fun h => clients h !! userId) ;;
    match client with
    | Some client =>
        state <- read (fun h => readyState h !! client) ;;
        if decide (state = Some OPEN) then ws_send client frame else ret tt
    | None => ret tt
    end) h
  = (h, map (fun c => Send c frame) (delivered h userIds), inr tt).
Proof.
  induction userIds as [|userId userIds IH]; [done|].
  cbn [forEach]. unfold bind at 1. rewrite bind_read.
  unfold delivered. cbn [omap list_omap].
  destruct (clients h !! userId) as [client|] eqn:Hc.
  - rewrite bind_read. case_decide.
    + cbn. rewrite IH. done.
    + cbn. rewrite IH. done.
  - cbn. rewrite IH. done.
Qed.

Lemma broadcastToUsers_eq userIds type payload h :
  broadcastToUsers userIds type payload h
  = (h, Broadcast userIds (mkEnvelope type payload)
        :: map (fun c => Send c (mkEnvelope type payload)) (delivered h userIds),
     inr tt).
Proof.
  unfold broadcastToUsers. rewrite bind_emit, forEach_deliver. done.
Qed.

Lemma broadcastToConversation_eq conversationId type payload exclude h :
  broadcastToConversation conversationId type payload exclude h
  = (h, Broadcast (recipients (participants_of (storage h) conversationId) exclude)
          (mkEnvelope type payload)
        :: map (fun c => Send c (mkEnvelope type payload))
             (delivered h (recipients (participants_of (storage h) conversationId) exclude)),
     inr tt).
Proof.
  unfold broadcastToConversation, getParticipants.
  rewrite bind_read. apply broadcastToUsers_eq.
Qed.

Lemma sends_cons_broadcast ids f t : sends (Broadcast ids f :: t) = sends t.
Proof. done. Qed.

Lemma sends_map_send (cs : list nat) f :
  sends (map (fun c => Send c f) cs) = map (fun c => (c, f)) cs.
Proof. induction cs as [|c cs IH]; [done|]. cbn. by f_equal. Qed.

Lemma broadcasts_map_send (cs : list nat) f :
  broadcasts (map (fun c => Send c f) cs) = [].
Proof. induction cs as [|c cs IH]; [done|]. done. Qed.

Lemma delivered_singleton h id :
  delivered h [id] =
    match clients h !! id with
    | Some client => if decide (readyState h !! client = Some OPEN) then [client] else []
    | None => []
    end.
Proof.
  unfold delivered. cbn. destruct (clients h !! id); [|done]. by case_decide.
Qed.

(** C7 (silent send): sending to an identity that has no entry in the
    registry, or whose registered connection is not open, returns
    normally, leaves the hub state as it was and writes to no socket; the
    only trace is the record of the call itself. *)
Theorem silent_send (h : Hub) (id type : string) (payload : OutPayload) :
  (clients h !! id = None \/
   exists client, clients h !! id = Some client /\ readyState h !! client <> Some OPEN) ->
  broadcastToUsers [id] type payload h
  = (h, [Broadcast [id] (mkEnvelope type payload)], inr tt).
Proof.
  intros Hid. rewrite broadcastToUsers_eq, delivered_singleton.
  destruct Hid as [-> | (client & -> & Hclosed)]; [done|].
  by rewrite decide_False.
Qed.

(** ** Running the handlers *)

#[local] Arguments broadcastToUsers : simpl never.
#[local] Arguments broadcastToConversation : simpl never.

Ltac exec_with lem :=
  cbn [bind ret read update emit throw try_catch prop state_of effects_of outcome_of
       fst snd app];
  rewrite ?lem;
  cbn [bind ret read update emit throw try_catch prop state_of effects_of outcome_of
       fst snd app].

Lemma truthy_Some s : s <> "" -> truthy (Some s) = Some s.
Proof. intros Hs. unfold truthy. by rewrite decide_False. Qed.

Lemma truthy_inv v s : truthy v = Some s -> v = Some s /\ s <> "".
Proof.
  unfold truthy. destruct v as [s'|]; [|done]. case_decide; [done|].
  intros [= ->]. done.
Qed.

Lemma if_bound_and_run ws p field body h userId v :
  userId_of h !! ws = Some userId -> userId <> "" ->
  field p = Some v -> v <> "" ->
  if_bound_and ws (Some p) field body h = body userId v p h.
Proof.
  intros Hu Hne Hf Hv. unfold if_bound_and. rewrite bind_read, Hu, Hf.
  by rewrite !truthy_Some.
Qed.

Lemma if_bound_and_cases ws payload field body h :
  if_bound_and ws payload field body h = (h, [], inr tt) \/
  if_bound_and ws payload field body h = (h, [], inl TypeError) \/
  exists userId v p,
    payload = Some p /\ truthy (userId_of h !! ws) = Some userId /\
    truthy (field p) = Some v /\
    if_bound_and ws payload field body h = body userId v p h.
Proof.
  unfold if_bound_and. rewrite bind_read.
  destruct (truthy (userId_of h !! ws)) as [userId|] eqn:Hu; [|by left].
  destruct payload as [p|]; [|by right; left].
  destruct (truthy (field p)) as [v|] eqn:Hv; [|by left].
  right; right. by exists userId, v, p.
Qed.

Lemma dispatch_typed ws type payload now uuid h :
  dispatch ws (Some (PValue type payload)) now uuid h
  = switch type (cases ws payload now uuid) h.
Proof.
  unfold dispatch, JSON_parse, destructure. by rewrite !bind_ret.
Qed.

Lemma on_message_typed ws type payload now uuid h :
  on_message ws (Some (PValue type payload)) now uuid h
  = try_catch (switch type (cases ws payload now uuid))
      (fun error => emit (ConsoleError error)) h.
Proof. unfold on_message, try_catch. by rewrite dispatch_typed. Qed.

Lemma case_user_online_eq ws p now h u :
  p_userId p = Some u -> u <> "" ->
  let h' :=
    with_storage (with_users
        (alter (fun usr => mkUser (u_username usr) online (Some now) (Some now)) u))
      (with_clients (insert u ws) (with_userId_of (insert ws u) h)) in
  let contactIds := contacts_of u (conversations_of (storage h') u) in
  case_user_online ws (Some p) now h
  = (h', Broadcast contactIds (mkEnvelope "user-status-changed" (UserStatusChanged u online))
         :: map (fun c => Send c (mkEnvelope "user-status-changed" (UserStatusChanged u online)))
              (delivered h' contactIds),
     inr tt).
Proof.
  intros Hp Hu. unfold case_user_online, updateUserStatus, getUserConversations.
  cbn [prop]. rewrite Hp. exec_with (truthy_Some u Hu).
  exec_with broadcastToUsers_eq. done.
Qed.

(** C5 (at most one live connection per identity): when a connection
    [ws2] registers by user-online for an identity that an older
    connection [ws1] holds, the lookup of the identity returns [ws2], and a
    later send to the identity writes to [ws2] alone (once when [ws2] is
    open, not at all otherwise): [ws1] receives nothing. *)
Theorem second_connection_replaces_first
    (h : Hub) (ws1 ws2 : nat) (u : string) (p : Payload) (now : Z) (uuid : string) :
  clients h !! u = Some ws1 -> ws1 <> ws2 ->
  p_userId p = Some u -> u <> "" ->
  let h' := step (Frame ws2 (Some (PValue (Some "user-online") (Some p))) now uuid) h in
  clients h' !! u = Some ws2 /\
  forall type payload,
    sends (effects_of (broadcastToUsers [u] type payload h'))
    = (if decide (readyState h' !! ws2 = Some OPEN)
       then [(ws2, mkEnvelope type payload)] else []) /\
    forall frame, (ws1, frame) ∉ sends (effects_of (broadcastToUsers [u] type payload h')).
Proof.
  intros Hold Hne Hp Hu h'.
  assert (Hlook : clients h' !! u = Some ws2).
  { subst h'. unfold step, handle. rewrite on_message_typed.
    unfold try_catch. cbn [switch cases]. rewrite decide_True by done.
    rewrite (case_user_online_eq _ _ _ _ u) by done.
    cbn. apply lookup_insert_eq. }
  split; [done|]. intros type payload.
  rewrite broadcastToUsers_eq, delivered_singleton, Hlook.
  cbn [effects_of fst snd]. rewrite sends_cons_broadcast, sends_map_send.
  split.
  - by case_decide.
  - intros frame. case_decide; cbn; [|apply not_elem_of_nil].
    rewrite list_elem_of_singleton. intros [= ? _]. done.
Qed.

Ltac exec :=
  cbv beta iota delta
      [bind ret read update emit throw try_catch prop
       getUser updateUserStatus getParticipants getUserConversations
       updateTypingStatus getMessage isUserInConversation getCall updateCall
       integer_column set_duration createCall addCallParticipant markMessageRead];
  rewrite ?broadcastToConversation_eq, ?broadcastToUsers_eq;
  cbn [state_of effects_of outcome_of fst snd app].

Ltac inner_scrutinee t :=
  lazymatch t with
  | context [match ?x with _ => _ end] => inner_scrutinee x
  | _ => t
  end.

Ltac case_inner :=
  match goal with
  | |- context [match ?x with _ => _ end] =>
      let y := inner_scrutinee x in destruct y eqn:?
  end.

(** The two ways [updateCallParticipant] ends. *)
Lemma updateCallParticipant_cases callId userId data h :
  (set_isMuted data = None /\ set_isVideoOff data = None /\
   set_isScreenSharing data = None /\
   updateCallParticipant callId userId data h
   = (h, [], inl (PlainError "No values to set"))) \/
  updateCallParticipant callId userId data h
  = (with_storage (with_callParticipants
       (map (fun k =>
          if decide (k_callId k = callId /\ k_userId k = userId)
          then apply_media data k
          else k))) h,
     [], inr tt).
Proof.
  unfold updateCallParticipant.
  destruct (set_isMuted data), (set_isVideoOff data), (set_isScreenSharing data);
    by (right + left).
Qed.

Ltac media_update :=
  match goal with
  | |- context [updateCallParticipant ?callId ?userId ?data ?h] =>
      destruct (updateCallParticipant_cases callId userId data h)
        as [(_ & _ & _ & ->)| ->]
  end.

Ltac exec_all := repeat (exec; try media_update; try case_inner).

(** ** The switch *)

Lemma switch_live type ws payload now uuid :
  switch type (cases ws payload now uuid) = switch type (live_cases ws payload now uuid).
Proof. cbn [switch cases live_cases]. repeat case_decide; done. Qed.

Lemma switch_elim (P : Exec unit -> Prop) type clauses :
  ((forall label, type = Some label -> label ∉ clauses.*1) -> P (ret tt)) ->
  (forall label body, (label, body) ∈ clauses -> type = Some label -> P body) ->
  P (switch type clauses).
Proof.
  induction clauses as [|[label body] clauses IH]; intros Hnone Hsome; cbn [switch].
  - apply Hnone. intros ? _. apply not_elem_of_nil.
  - case_decide as Hty.
    + apply (Hsome label body); [left|done].
    + apply IH.
      * intros Hnot. apply Hnone. intros l Hl. cbn. rewrite not_elem_of_cons.
        split; [congruence|auto].
      * intros l b Hin. apply Hsome. by right.
Qed.

Lemma on_message_eq ws data now uuid h :
  on_message ws data now uuid h
  = (state_of (dispatch ws data now uuid h),
     effects_of (dispatch ws data now uuid h)
       ++ match outcome_of (dispatch ws data now uuid h) with
          | inl error => [ConsoleError error]
          | inr _ => []
          end,
     inr tt).
Proof.
  unfold on_message, try_catch, emit.
  destruct (dispatch ws data now uuid h) as [[h1 t1] [error|[]]]; cbn; [done|].
  by rewrite app_nil_r.
Qed.

Lemma dispatch_elim (P : Hub * list Effect * (Error + unit) -> Prop) ws data now uuid h :
  (data = None -> P (h, [], inl SyntaxError)) ->
  (data = Some PNull -> P (h, [], inl TypeError)) ->
  (forall type payload,
     data = Some (PValue type payload) ->
     (forall label, type = Some label -> label ∉ (cases ws payload now uuid).*1) ->
     P (h, [], inr tt)) ->
  (forall label body payload,
     data = Some (PValue (Some label) payload) ->
     (label, body) ∈ live_cases ws payload now uuid -> P (body h)) ->
  P (dispatch ws data now uuid h).
Proof.
  intros Hsyn Hnull Hnone Hcase.
  destruct data as [[|type payload]|]; [by apply Hnull| |by apply Hsyn].
  rewrite dispatch_typed, switch_live.
  pattern (switch type (live_cases ws payload now uuid)).
  apply switch_elim.
  - intros Hnot. apply (Hnone type payload); [done|].
    intros label Hl. specialize (Hnot label Hl). revert Hnot. cbn.
    rewrite !not_elem_of_cons. tauto.
  - intros label body Hin ->. by apply (Hcase label body payload).
Qed.

Ltac each_case Hin :=
  unfold live_cases in Hin;
  rewrite !elem_of_cons, elem_of_nil in Hin;
  repeat (destruct Hin as [[= -> ->]|Hin]); [..|done].

Ltac open_case :=
  unfold case_user_online, case_typing, case_start_call, case_accept_call,
    case_decline_call, case_end_call, case_toggle, case_relay, if_bound_and.

Lemma cases_readyState ws payload now uuid label body h :
  (label, body) ∈ live_cases ws payload now uuid ->
  readyState (state_of (body h)) = readyState h.
Proof. intros Hin. each_case Hin; open_case; exec_all; done. Qed.

(** C8 (robust dispatch): the per-message handler always returns normally
    and closes no socket.  A frame that is no JSON is logged and changes
    nothing; a frame whose type is none of the case labels is ignored
    without a log entry; an error raised while handling is logged after
    what the handler had done up to it. *)
Theorem robust_dispatch (ws : nat) (data : option Parsed) (now : Z) (uuid : string)
    (h : Hub) :
  let r := on_message ws data now uuid h in
  outcome_of r = inr tt /\
  readyState (state_of r) = readyState h /\
  (data = None -> r = (h, [ConsoleError SyntaxError], inr tt)) /\
  (forall type payload,
     data = Some (PValue type payload) ->
     (forall label, type = Some label -> label ∉ (cases ws payload now uuid).*1) ->
     r = (h, [], inr tt)) /\
  (forall error,
     outcome_of (dispatch ws data now uuid h) = inl error ->
     state_of r = state_of (dispatch ws data now uuid h) /\
     effects_of r = effects_of (dispatch ws data now uuid h) ++ [ConsoleError error]).
Proof.
  cbn zeta. rewrite on_message_eq. cbn [outcome_of state_of effects_of fst snd].
  split; [done|]. split; [|split; [|split]].
  - pattern (dispatch ws data now uuid h). apply dispatch_elim; try done.
    intros label body payload _ Hin. by apply (cases_readyState ws payload now uuid label).
  - by intros ->.
  - intros type payload -> Hnone. rewrite dispatch_typed.
    pattern (switch type (cases ws payload now uuid)). apply switch_elim; [done|].
    intros label body Hin Hty. exfalso. apply (Hnone label Hty).
    apply list_elem_of_fmap. by exists (label, body).
  - by intros error ->.
Qed.

Lemma on_close_eq ws now h u :
  userId_of h !! ws = Some u -> u <> "" ->
  let h' :=
    with_storage (with_users
        (alter (fun usr => mkUser (u_username usr) offline (Some now) (Some now)) u))
      (with_clients (delete u) h) in
  let contactIds := contacts_of u (conversations_of (storage h') u) in
  on_close ws now h
  = (h', Broadcast contactIds (mkEnvelope "user-status-changed" (UserStatusChanged u offline))
         :: map (fun c => Send c (mkEnvelope "user-status-changed" (UserStatusChanged u offline)))
              (delivered h' contactIds),
     inr tt).
Proof.
  intros Hws Hu. unfold on_close. rewrite bind_read, Hws, truthy_Some by done.
  exec. done.
Qed.

(** ** Calls *)

Lemma call_step_refl label now o : call_step label now o o.
Proof. destruct o; cbn; auto. Qed.

Ltac finish_call_step id :=
  lazymatch goal with
  | |- call_step _ _ _ (<[?k := _]> _ !! _) =>
      destruct (decide (id = k)) as [->|?];
      [ rewrite lookup_insert_eq;
        match goal with H : calls _ !! k = None |- _ => rewrite H end; by cbn
      | rewrite lookup_insert_ne by done; apply call_step_refl ]
  | |- call_step _ _ _ (alter _ ?k _ !! _) =>
      destruct (decide (id = k)) as [->|?];
      [ rewrite lookup_alter_eq;
        match goal with H : calls _ !! k = Some _ |- _ => rewrite H end;
        cbn [fmap option_fmap option_map call_step]; unfold duration_at;
        repeat match goal with H : c_startedAt _ = _ |- _ => rewrite H end;
        first [ by left | by (right; left) | by (right; right; left)
              | by (right; right; right) ]
      | rewrite lookup_alter_ne by done; apply call_step_refl ]
  end.

Ltac project :=
  cbn [calls users conversations conversationParticipants callParticipants messages
       messageReceipts storage clients readyState userId_of
       with_storage with_calls with_users with_callParticipants
       with_conversationParticipants with_messageReceipts
       with_clients with_userId_of with_readyState].

Lemma cases_call_step ws payload now uuid label body h id :
  (label, body) ∈ live_cases ws payload now uuid ->
  call_step label now (calls (storage h) !! id) (calls (storage (state_of (body h))) !! id).
Proof.
  intros Hin. each_case Hin; open_case; exec_all; project;
    try apply call_step_refl; finish_call_step id.
Qed.

(** Every event leaves the row of a call alone or is a frame that moves
    it by [call_step]. *)
Lemma step_calls ev h id :
  calls (storage (step ev h)) !! id = calls (storage h) !! id \/
  exists label now,
    frame_type ev = Some label /\ clock ev = Some now /\
    call_step label now (calls (storage h) !! id) (calls (storage (step ev h)) !! id).
Proof.
  destruct ev as [ws|ws data now uuid|ws now|userId messageId now]; unfold step, handle.
  - left. exec_all. by project.
  - rewrite on_message_eq. cbn [state_of fst].
    pattern (dispatch ws data now uuid h). apply dispatch_elim; try (by left).
    intros label body payload -> Hin. right. exists label, now.
    split; [done|]. split; [done|]. by apply (cases_call_step ws payload now uuid).
  - left. unfold on_close. exec_all; by project.
  - left. unfold mark_read. exec_all; by project.
Qed.

Lemma status_step_of_call_step label now pre post :
  call_step label now pre post ->
  status_step (Some label) (c_status <$> pre) (c_status <$> post).
Proof.
  destruct pre as [c|], post as [c'|]; cbn; try done.
  - intros [->|[[-> ->]|[[-> ->]|[-> ->]]]]; cbn; auto 6.
  - intros (-> & -> & _). done.
Qed.

Lemma status_step_refl type o : status_step type o o.
Proof. destruct o; cbn; auto. Qed.

Ltac exec_under tac := repeat (progress (exec; project; tac)).

Lemma case_accept_call_calls ws p now h u usr callId c :
  userId_of h !! ws = Some u -> u <> "" ->
  users (storage h) !! u = Some usr ->
  p_callId p = Some callId -> callId <> "" ->
  calls (storage h) !! callId = Some c ->
  calls (storage (state_of (case_accept_call ws (Some p) now h))) !! callId
  = Some (apply_patch (mkCallPatch (Some active) (Some now) None None) c).
Proof.
  intros Hws Hu Husr Hp Hid Hc. unfold case_accept_call.
  rewrite (if_bound_and_run _ _ _ _ _ u callId) by done.
  exec_under ltac:(rewrite ?Hc, ?Husr).
  destruct (truthy (c_conversationId c)); exec; project;
    by rewrite lookup_alter_eq, Hc.
Qed.

Lemma live_cases_NoDup ws payload now uuid :
  NoDup (live_cases ws payload now uuid).*1.
Proof. cbn. apply (bool_decide_unpack _). by vm_compute. Qed.

Lemma switch_NoDup label body clauses :
  (label, body) ∈ clauses -> NoDup clauses.*1 -> switch (Some label) clauses = body.
Proof.
  induction clauses as [|[l0 b0] l IH]; [by intros ?%elem_of_nil|].
  intros Hin Hnd. cbn [switch]. cbn in Hnd. apply NoDup_cons in Hnd as [Hnotin Hnd].
  apply elem_of_cons in Hin as [[= <- <-]|Hin].
  - by rewrite decide_True.
  - rewrite decide_False; [by apply IH|].
    intros [= ->]. apply Hnotin. apply list_elem_of_fmap. by exists (l0, body).
Qed.

Lemma dispatch_live ws label payload now uuid h body :
  (label, body) ∈ live_cases ws payload now uuid ->
  dispatch ws (Some (PValue (Some label) payload)) now uuid h = body h.
Proof.
  intros Hin. rewrite dispatch_typed, switch_live.
  by rewrite (switch_NoDup label body) by (done || apply live_cases_NoDup).
Qed.

Lemma on_message_live ws label payload now uuid h body :
  (label, body) ∈ live_cases ws payload now uuid ->
  on_message ws (Some (PValue (Some label) payload)) now uuid h
  = (state_of (body h),
     effects_of (body h)
       ++ match outcome_of (body h) with
          | inl error => [ConsoleError error]
          | inr _ => []
          end,
     inr tt).
Proof. intros Hin. by rewrite on_message_eq, (dispatch_live _ _ _ _ _ _ body). Qed.

Ltac live_case :=
  unfold live_cases; rewrite !elem_of_cons; tauto.

(** C1, as the handlers have it: a call appears by start-call alone, with
    status initiated, and is never removed; afterwards an event leaves its
    status or sets it to active (accept-call), declined (decline-call) or
    ended (end-call), and nothing sets ringing, missed or initiated again.
    The handlers do not read the current status: an accept-call from a
    bound, existing user makes any existing call active, whatever it was. *)
Theorem call_status_transitions :
  (forall (ev : Event) (h : Hub) (id : string),
     status_step (frame_type ev)
       (c_status <$> calls (storage h) !! id)
       (c_status <$> calls (storage (step ev h)) !! id)) /\
  (forall (h : Hub) (ws : nat) (u : string) (usr : User) (callId : string) (c : Call)
          (p : Payload) (now : Z) (uuid : string),
     userId_of h !! ws = Some u -> u <> "" ->
     users (storage h) !! u = Some usr ->
     p_callId p = Some callId -> callId <> "" ->
     calls (storage h) !! callId = Some c ->
     c_status <$> calls (storage
         (step (Frame ws (Some (PValue (Some "accept-call") (Some p))) now uuid) h))
       !! callId
     = Some active).
Proof.
  split.
  - intros ev h id. destruct (step_calls ev h id) as [->|(label & now & Hty & _ & Hstep)].
    + apply status_step_refl.
    + rewrite Hty. by apply (status_step_of_call_step label now).
  - intros h ws u usr callId c p now uuid Hws Hu Husr Hp Hid Hc.
    unfold step, handle.
    rewrite (on_message_live ws "accept-call" (Some p) now uuid h
               (case_accept_call ws (Some p) now)) by live_case.
    cbn [state_of fst].
    by rewrite (case_accept_call_calls ws p now h u usr callId c).
Qed.

(** C1, refuted as stated: Bob declines the call [k1], its status is
    declined, and his accept-call then makes it active. *)
Lemma accept_after_decline_activates :
  c_status <$> calls (storage Scenario.declined_hub) !! "k1" = Some declined /\
  c_status <$> calls (storage
      (step (Scenario.frame 2 "accept-call" (Scenario.on_call "k1") 5000)
            Scenario.declined_hub)) !! "k1"
  = Some active.
Proof. by vm_compute. Qed.

Lemma call_status_transitions_witness :
  c_status <$> calls (storage
      (step (Frame 2 (Some (PValue (Some "accept-call") (Some (Scenario.on_call "k1"))))
               5000 "k2")
            Scenario.declined_hub)) !! "k1"
  = Some active.
Proof.
  apply (proj2 call_status_transitions Scenario.declined_hub 2 "B"
           (mkUser "bob" online (Some 2000%Z) (Some 2000%Z)) "k1"
           (mkCall (Some "c1") "A" voice declined None None None));
    by vm_compute.
Defined.

Lemma recipients_all participants :
  recipients participants None = map (fun row => cp_userId row.1) participants.
Proof.
  unfold recipients. induction (map _ participants) as [|x l IH]; [done|].
  rewrite filter_cons_True by done. by f_equal.
Qed.

(** What end-call does for a bound connection on an existing call: the
    update and the broadcast when the duration fits the column, the
    database's error and nothing else when it does not. *)
Lemma case_end_call_eq ws p now h u callId c :
  userId_of h !! ws = Some u -> u <> "" ->
  p_callId p = Some callId -> callId <> "" ->
  calls (storage h) !! callId = Some c ->
  case_end_call ws (Some p) now h
  = if decide (int4 (duration_at now c)) then
      (with_storage (with_calls
         (alter (apply_patch
                   (mkCallPatch (Some ended) None (Some now) (Some (duration_at now c))))
                callId)) h,
       match truthy (c_conversationId c) with
       | Some conversationId =>
           let userIds := recipients (participants_of (storage h) conversationId) None in
           Broadcast userIds
             (mkEnvelope "call-ended" (CallEnded callId u (duration_at now c)))
           :: map (fun client =>
                     Send client
                       (mkEnvelope "call-ended" (CallEnded callId u (duration_at now c))))
                (delivered h userIds)
       | None => []
       end,
       inr tt)
    else (h, [], inl (DbError "numeric_value_out_of_range")).
Proof.
  intros Hws Hu Hp Hid Hc. unfold case_end_call.
  rewrite (if_bound_and_run _ _ _ _ _ u callId) by done.
  unfold duration_at. exec_under ltac:(rewrite ?Hc).
  destruct (decide (int4 _)) as [Hfit|Hout]; exec; [|done].
  destruct (truthy (c_conversationId c)); exec; done.
Qed.

Lemma step_startedAt ev h id c' t :
  calls (storage (step ev h)) !! id = Some c' -> c_startedAt c' = Some t ->
  (exists c, calls (storage h) !! id = Some c /\ c_startedAt c = Some t) \/
  clock ev = Some t.
Proof.
  intros Hpost Ht.
  destruct (step_calls ev h id) as [Heq|(label & now & _ & Hclock & Hstep)].
  - left. exists c'. by rewrite <- Heq.
  - rewrite Hpost in Hstep.
    destruct (calls (storage h) !! id) as [c|]; cbn in Hstep.
    + destruct Hstep as [->|[[_ ->]|[[_ ->]|[_ ->]]]]; cbn in Ht.
      * left. by exists c.
      * right. congruence.
      * left. by exists c.
      * left. by exists c.
    + destruct Hstep as (_ & _ & Hnone). congruence.
Qed.

(** While the clock has not passed [now], no call has started after
    [now]. *)
Lemma run_startedAt_le now evs :
  forall h0,
    (forall id c t,
       calls (storage h0) !! id = Some c -> c_startedAt c = Some t -> (t <= now)%Z) ->
    (forall ev t, ev ∈ evs -> clock ev = Some t -> (t <= now)%Z) ->
    forall id c t,
      calls (storage (run evs h0)) !! id = Some c -> c_startedAt c = Some t ->
      (t <= now)%Z.
Proof.
  induction evs as [|ev evs IH]; intros h0 Hinit Hclock; [exact Hinit|].
  cbn [run foldl]. apply (IH (step ev h0)).
  - intros id c t Hc Ht.
    destruct (step_startedAt ev h0 id c t Hc Ht) as [(c0 & Hc0 & Ht0)|Hev].
    + by apply (Hinit id c0).
    + apply (Hclock ev); [left|done].
  - intros ev' t Hin. apply Hclock. by right.
Qed.

(** C4 (duration), as the handler has it: the end-call of a bound
    connection on an existing call computes the floor of
    [(endedAt - startedAt) / 1000], or 0 for a call that never started.
    When that number fits the integer column, the call is stored ended
    with [endedAt] and this duration; when it does not, the database
    refuses the update and the hub stays as it was.  The handler does not
    clamp: the duration is not negative exactly when [endedAt] is not
    before [startedAt], which holds in every run whose clock readings do
    not exceed the one of the end-call. *)
Theorem duration_invariant
    (h : Hub) (ws : nat) (u callId : string) (c : Call) (p : Payload)
    (now : Z) (uuid : string) :
  userId_of h !! ws = Some u -> u <> "" ->
  p_callId p = Some callId -> callId <> "" ->
  calls (storage h) !! callId = Some c ->
  let h' := step (Frame ws (Some (PValue (Some "end-call") (Some p))) now uuid) h in
  let floor_of d startedAt :=
    d = ((now - startedAt) / 1000)%Z /\
    (1000 * d <= now - startedAt < 1000 * d + 1000)%Z /\
    (0 <= d <-> startedAt <= now)%Z in
  (int4 (duration_at now c) ->
   exists c',
     calls (storage h') !! callId = Some c' /\
     c_status c' = ended /\
     c_endedAt c' = Some now /\
     c_startedAt c' = c_startedAt c /\
     match c_startedAt c with
     | Some startedAt => exists d, c_duration c' = Some d /\ floor_of d startedAt
     | None => c_duration c' = Some 0%Z
     end) /\
  (~ int4 (duration_at now c) ->
   h' = h /\
   exists startedAt d,
     c_startedAt c = Some startedAt /\ floor_of d startedAt /\ ~ int4 d) /\
  (forall h0 evs,
     h = run evs h0 ->
     (forall id c0 t,
        calls (storage h0) !! id = Some c0 -> c_startedAt c0 = Some t -> (t <= now)%Z) ->
     (forall ev t, ev ∈ evs -> clock ev = Some t -> (t <= now)%Z) ->
     (0 <= duration_at now c)%Z).
Proof.
  intros Hws Hu Hp Hid Hc h' floor_of.
  assert (forall startedAt, floor_of ((now - startedAt) / 1000)%Z startedAt) as Hfloor.
  { intros startedAt. subst floor_of. cbn beta. split; [done|].
    pose proof (Z.mul_div_le (now - startedAt) 1000 ltac:(lia)).
    pose proof (Z.mul_succ_div_gt (now - startedAt) 1000 ltac:(lia)).
    split; [lia|]. split; intros Hle.
    - destruct (decide (startedAt <= now)%Z); [done|].
      assert ((now - startedAt) / 1000 < 0)%Z by (apply Z.div_lt_upper_bound; lia). lia.
    - apply Z.div_pos; lia. }
  assert (h' = state_of (case_end_call ws (Some p) now h)) as Hh'.
  { subst h'. unfold step, handle.
    by rewrite (on_message_live ws "end-call" (Some p) now uuid h
                  (case_end_call ws (Some p) now)) by live_case. }
  rewrite (case_end_call_eq ws p now h u callId c) in Hh' by done.
  split; [|split].
  - intros Hfit. rewrite decide_True in Hh' by done. cbn [state_of fst] in Hh'.
    exists (apply_patch
              (mkCallPatch (Some ended) None (Some now) (Some (duration_at now c))) c).
    split; [|split; [done|split; [done|split; [done|]]]].
    + rewrite Hh'. project. by rewrite lookup_alter_eq, Hc.
    + cbn. unfold duration_at.
      destruct (c_startedAt c) as [startedAt|]; [|done]. by eexists.
  - intros Hout. rewrite decide_False in Hh' by done. split; [done|].
    unfold duration_at in Hout. destruct (c_startedAt c) as [startedAt|].
    + by exists startedAt, ((now - startedAt) / 1000)%Z.
    + exfalso. apply Hout. unfold int4. lia.
  - intros h0 evs -> Hinit Hclock. unfold duration_at.
    destruct (c_startedAt c) as [startedAt|] eqn:Hstart; [|done].
    apply Z.div_pos; [|lia].
    pose proof (run_startedAt_le now evs h0 Hinit Hclock callId c startedAt Hc Hstart).
    lia.
Qed.

(** C4, refuted as stated: Bob accepts [k1] at 4000 and Alice's end-call
    is handled with the clock at 3500; the call is stored ended with the
    duration -1. *)
Lemma clock_step_back_gives_negative_duration :
  let h := run (Scenario.ringing_events
                  ++ [ Scenario.frame 2 "accept-call" (Scenario.on_call "k1") 4000;
                       Scenario.frame 1 "end-call" (Scenario.on_call "k1") 3500 ])
               Scenario.hub in
  calls (storage h) !! "k1"
  = Some (mkCall (Some "c1") "A" voice ended (Some 4000%Z) (Some 3500%Z) (Some (-1)%Z)).
Proof. by vm_compute. Qed.

Lemma duration_invariant_witness :
  let h := run (Scenario.ringing_events
                  ++ [Scenario.frame 2 "accept-call" (Scenario.on_call "k1") 4000])
               Scenario.hub in
  exists c',
    calls (storage
        (step (Frame 1 (Some (PValue (Some "end-call") (Some (Scenario.on_call "k1"))))
                 9500 "k1") h)) !! "k1" = Some c' /\
    c_status c' = ended /\ c_endedAt c' = Some 9500%Z /\ c_duration c' = Some 5%Z.
Proof.
  intros h.
  assert (userId_of h !! 1%nat = Some "A") as Hws by (by vm_compute).
  assert (calls (storage h) !! "k1"
          = Some (mkCall (Some "c1") "A" voice active (Some 4000%Z) None None)) as Hc
    by (by vm_compute).
  destruct (duration_invariant h 1 "A" "k1" _ (Scenario.on_call "k1") 9500 "k1"
              Hws ltac:(done) eq_refl ltac:(done) Hc) as (Hfit & _ & _).
  destruct Hfit as (c' & Hc' & Hst & Hend & _ & d & Hd & -> & _).
  { apply (bool_decide_unpack _). vm_compute. exact I. }
  exists c'. by repeat split.
Defined.

Lemma case_decline_call_eq ws p h u callId c :
  userId_of h !! ws = Some u -> u <> "" ->
  p_callId p = Some callId -> callId <> "" ->
  calls (storage h) !! callId = Some c ->
  let h' :=
    with_storage (with_calls
      (alter (apply_patch (mkCallPatch (Some declined) None None None)) callId)) h in
  case_decline_call ws (Some p) h
  = (h',
     match truthy (c_conversationId c) with
     | Some conversationId =>
         let userIds := recipients (participants_of (storage h) conversationId) None in
         Broadcast userIds (mkEnvelope "call-declined" (CallDeclined callId u))
         :: map (fun client =>
                   Send client (mkEnvelope "call-declined" (CallDeclined callId u)))
              (delivered h userIds)
     | None => []
     end,
     inr tt).
Proof.
  intros Hws Hu Hp Hid Hc h'. unfold case_decline_call.
  rewrite (if_bound_and_run _ _ _ _ _ u callId) by done.
  exec_under ltac:(rewrite ?Hc).
  destruct (truthy (c_conversationId c)); exec; done.
Qed.

(** C2, as the handler has it: a decline-call from a bound connection on
    an existing call sets the status to declined whatever the status was,
    terminal or not, changes nothing else in the hub, and emits one
    call-declined broadcast to every participant of the call's
    conversation (none for a call without conversation). *)
Theorem decline_call_unconditional
    (h : Hub) (ws : nat) (u callId : string) (c : Call) (p : Payload)
    (now : Z) (uuid : string) :
  userId_of h !! ws = Some u -> u <> "" ->
  p_callId p = Some callId -> callId <> "" ->
  calls (storage h) !! callId = Some c ->
  let r := handle (Frame ws (Some (PValue (Some "decline-call") (Some p))) now uuid) h in
  state_of r
    = with_storage (with_calls
        (insert callId
           (mkCall (c_conversationId c) (c_initiatorId c) (c_type c) declined
                   (c_startedAt c) (c_endedAt c) (c_duration c)))) h /\
  broadcasts (effects_of r)
    = match truthy (c_conversationId c) with
      | Some conversationId =>
          [(map (fun row => cp_userId row.1) (participants_of (storage h) conversationId),
            mkEnvelope "call-declined" (CallDeclined callId u))]
      | None => []
      end /\
  outcome_of r = inr tt.
Proof.
  intros Hws Hu Hp Hid Hc r. subst r. unfold handle.
  rewrite (on_message_live ws "decline-call" (Some p) now uuid h
             (case_decline_call ws (Some p))) by live_case.
  rewrite (case_decline_call_eq ws p h u callId c) by done.
  cbn [state_of effects_of outcome_of fst snd].
  split; [|split; [|done]].
  - unfold with_storage, with_calls. do 2 f_equal.
    apply map_eq. intros id. destruct (decide (id = callId)) as [->|Hne].
    + by rewrite lookup_alter_eq, lookup_insert_eq, Hc.
    + by rewrite lookup_alter_ne, lookup_insert_ne.
  - rewrite app_nil_r. destruct (truthy (c_conversationId c)); [|done].
    cbn [broadcasts omap list_omap]. rewrite broadcasts_map_send.
    by rewrite recipients_all.
Qed.

(** C2, refuted as stated: the call [k1] was accepted and ended; Bob's
    decline-call then turns the ended call into a declined one and sends
    call-declined to both participants. *)
Lemma decline_of_ended_call_broadcasts :
  let h := run [ Scenario.frame 2 "accept-call" (Scenario.on_call "k1") 4000;
                 Scenario.frame 1 "end-call" (Scenario.on_call "k1") 9500 ]
               Scenario.ringing_hub in
  let r := handle (Scenario.frame 2 "decline-call" (Scenario.on_call "k1") 9900) h in
  c_status <$> calls (storage h) !! "k1" = Some ended /\
  c_status <$> calls (storage (state_of r)) !! "k1" = Some declined /\
  effects_of r
    = [ Broadcast ["A"; "B"] (mkEnvelope "call-declined" (CallDeclined "k1" "B"));
        Send 1 (mkEnvelope "call-declined" (CallDeclined "k1" "B"));
        Send 2 (mkEnvelope "call-declined" (CallDeclined "k1" "B")) ].
Proof. by vm_compute. Qed.

Lemma decline_call_unconditional_witness :
  let r := handle (Frame 2 (Some (PValue (Some "decline-call")
                                    (Some (Scenario.on_call "k1")))) 9900 "k2")
             Scenario.declined_hub in
  broadcasts (effects_of r)
    = [(map (fun row => cp_userId row.1)
          (participants_of (storage Scenario.declined_hub) "c1"),
        mkEnvelope "call-declined" (CallDeclined "k1" "B"))].
Proof.
  apply (decline_call_unconditional Scenario.declined_hub 2 "B" "k1"
           (mkCall (Some "c1") "A" voice declined None None None)
           (Scenario.on_call "k1") 9900 "k2"); by vm_compute.
Defined.

(** ** Recipients *)

Lemma elem_of_map {A B} (f : A -> B) (l : list A) (y : B) :
  y ∈ map f l <-> exists x, y = f x /\ x ∈ l.
Proof.
  induction l as [|a l IH]; cbn.
  - split; [by intros ?%elem_of_nil|by intros (? & _ & ?%elem_of_nil)].
  - rewrite elem_of_cons, IH. split.
    + intros [->|(x & -> & Hx)]; [exists a|exists x]; split; try done; [left|by right].
    + intros (x & -> & [->|Hx]%elem_of_cons); [by left|right; by exists x].
Qed.

Lemma elem_of_participants_of db conversationId row user :
  (row, user) ∈ participants_of db conversationId <->
  row ∈ conversationParticipants db /\ cp_conversationId row = conversationId /\
  users db !! cp_userId row = Some user.
Proof.
  unfold participants_of. rewrite list_elem_of_omap. split.
  - intros (row' & [Hconv Hin]%list_elem_of_filter & Hsome).
    destruct (users db !! cp_userId row') as [user'|] eqn:Hu; [|done].
    by injection Hsome as -> ->.
  - intros (Hin & Hconv & Hu). exists row. split.
    + by apply list_elem_of_filter.
    + by rewrite Hu.
Qed.

(** The recipients of a conversation broadcast are the identities that
    have a row in the conversation and a user row, the excluded one apart. *)
Lemma elem_of_recipients db conversationId exclude x :
  x ∈ recipients (participants_of db conversationId) exclude <->
  Some x <> exclude /\
  exists row, row ∈ conversationParticipants db /\
              cp_conversationId row = conversationId /\ cp_userId row = x /\
              is_Some (users db !! x).
Proof.
  unfold recipients. rewrite list_elem_of_filter, elem_of_map. split.
  - intros (Hne & [row user] & -> & Hin). split; [done|].
    apply elem_of_participants_of in Hin as (Hin & Hconv & Hu).
    exists row. cbn. eauto.
  - intros (Hne & row & Hin & Hconv & <- & [user Hu]). split; [done|].
    exists (row, user). split; [done|]. by apply elem_of_participants_of.
Qed.

Lemma case_start_call_eq ws p now uuid h u usr conv :
  userId_of h !! ws = Some u -> u <> "" ->
  users (storage h) !! u = Some usr ->
  p_conversationId p = Some conv -> conv <> "" ->
  conv ∈ conversations (storage h) ->
  calls (storage h) !! uuid = None ->
  let call := mkCall (Some conv) u (default voice (p_type p)) initiated None None None in
  let h' :=
    with_storage (with_callParticipants
        (fun rows => rows ++ [mkCallParticipant uuid u (Some now) None false false false]))
      (with_storage (with_calls (insert uuid call)) h) in
  let userIds := recipients (participants_of (storage h) conv) (Some u) in
  case_start_call ws (Some p) now uuid h
  = (h',
     Broadcast userIds (mkEnvelope "incoming-call" (IncomingCall uuid call (Some usr)))
     :: map (fun client =>
               Send client (mkEnvelope "incoming-call" (IncomingCall uuid call (Some usr))))
          (delivered h userIds),
     inr tt).
Proof.
  intros Hws Hu Husr Hp Hconv Hknown Hfresh call h' userIds. unfold case_start_call.
  rewrite (if_bound_and_run _ _ _ _ _ u conv) by done.
  exec_under ltac:(rewrite ?Hfresh, ?Husr, ?(bool_decide_eq_true_2 _ Hknown),
                     ?lookup_insert_eq).
  done.
Qed.

(** What start-call does for a bound connection when the calls table
    refuses the insert: the error is logged and nothing else happens. *)
Lemma case_start_call_refused ws p now uuid h u conv :
  userId_of h !! ws = Some u -> u <> "" ->
  p_conversationId p = Some conv -> conv <> "" ->
  calls (storage h) !! uuid = None ->
  users (storage h) !! u = None \/ conv ∉ conversations (storage h) ->
  exists constraint,
    case_start_call ws (Some p) now uuid h = (h, [], inl (DbError constraint)).
Proof.
  intros Hws Hu Hp Hconv Hfresh Hwhy. unfold case_start_call.
  rewrite (if_bound_and_run _ _ _ _ _ u conv) by done.
  exec. rewrite Hfresh.
  destruct (bool_decide (conv ∈ conversations (storage h))) eqn:Hknown.
  - destruct Hwhy as [->|Hunknown]; [by eexists|].
    by apply bool_decide_eq_true_1 in Hknown.
  - destruct (users (storage h) !! u); by eexists.
Qed.

(** C6 (start-call), as the handler and the schema have it.  A
    start-call from a bound connection that names a conversation, with a
    new call identifier: when the bound identity has a user row and the
    conversation exists, it creates the call row with status initiated,
    adds the initiator as a call participant, and emits one incoming-call
    broadcast that carries the call and the initiator's user row; its
    recipients are exactly the participants of the conversation other than
    the initiator, and it is written to each of their open registered
    sockets.  When the identity has no user row or the conversation does
    not exist, the calls table refuses the insert: the hub stays as it
    was, nothing is broadcast and the error is logged. *)
Theorem start_call_postcondition
    (h : Hub) (ws : nat) (u : string) (conv : string) (p : Payload)
    (now : Z) (uuid : string) :
  userId_of h !! ws = Some u -> u <> "" ->
  p_conversationId p = Some conv -> conv <> "" ->
  calls (storage h) !! uuid = None ->
  let r := handle (Frame ws (Some (PValue (Some "start-call") (Some p))) now uuid) h in
  let call := mkCall (Some conv) u (default voice (p_type p)) initiated None None None in
  (forall usr,
     users (storage h) !! u = Some usr ->
     conv ∈ conversations (storage h) ->
     let frame := mkEnvelope "incoming-call" (IncomingCall uuid call (Some usr)) in
     calls (storage (state_of r)) !! uuid = Some call /\
     callParticipants (storage (state_of r))
       = callParticipants (storage h)
           ++ [mkCallParticipant uuid u (Some now) None false false false] /\
     exists userIds,
       broadcasts (effects_of r) = [(userIds, frame)] /\
       sends (effects_of r) = map (fun client => (client, frame)) (delivered h userIds) /\
       forall x,
         x ∈ userIds <->
         x <> u /\
         exists row, row ∈ conversationParticipants (storage h) /\
                     cp_conversationId row = conv /\ cp_userId row = x /\
                     is_Some (users (storage h) !! x)) /\
  (users (storage h) !! u = None \/ conv ∉ conversations (storage h) ->
   state_of r = h /\
   exists constraint, effects_of r = [ConsoleError (DbError constraint)]).
Proof.
  intros Hws Hu Hp Hconv Hfresh r call. subst r. unfold handle.
  rewrite (on_message_live ws "start-call" (Some p) now uuid h
             (case_start_call ws (Some p) now uuid)) by live_case.
  split.
  - intros usr Husr Hknown. cbv zeta.
    rewrite (case_start_call_eq ws p now uuid h u usr conv) by done.
    cbn [state_of effects_of outcome_of fst snd]. rewrite app_nil_r.
    split; [|split].
    + project. apply lookup_insert_eq.
    + done.
    + exists (recipients (participants_of (storage h) conv) (Some u)).
      split; [|split].
      * cbn [broadcasts omap list_omap]. by rewrite broadcasts_map_send.
      * by rewrite sends_cons_broadcast, sends_map_send.
      * intros x. rewrite elem_of_recipients. split.
        -- intros [Hne Hrow]. split; [congruence|done].
        -- intros [Hne Hrow]. split; [congruence|done].
  - intros Hwhy.
    destruct (case_start_call_refused ws p now uuid h u conv) as [constraint ->];
      try done.
    cbn [state_of effects_of outcome_of fst snd]. split; [done|]. by exists constraint.
Qed.

(** C6, refuted as stated: socket 3 binds the identity [Z], which has
    no user row, and starts a call in the existing conversation [c1]; the
    insert of the call is refused, no call and no call participant is
    stored, and no incoming-call is emitted. *)
Lemma start_call_of_unknown_user_creates_no_call :
  let h := run [ Connection 3; Scenario.frame 3 "user-online" (Scenario.user_online "Z") 3500 ]
               Scenario.ringing_hub in
  let r := handle (Frame 3 (Some (PValue (Some "start-call")
                                    (Some (Scenario.in_conversation "c1" None))))
                     5000 "k2") h in
  userId_of h !! 3%nat = Some "Z" /\
  calls (storage (state_of r)) !! "k2" = None /\
  callParticipants (storage (state_of r)) = callParticipants (storage h) /\
  effects_of r = [ConsoleError (DbError "calls_initiator_id_fkey")].
Proof. by vm_compute. Qed.

Lemma start_call_postcondition_witness :
  let r := handle (Frame 1 (Some (PValue (Some "start-call")
                                    (Some (Scenario.in_conversation "c1" None))))
                     5000 "k2")
             Scenario.ringing_hub in
  calls (storage (state_of r)) !! "k2"
  = Some (mkCall (Some "c1") "A" voice initiated None None None).
Proof.
  intros r.
  assert (userId_of Scenario.ringing_hub !! 1%nat = Some "A") as Hws by (by vm_compute).
  assert (calls (storage Scenario.ringing_hub) !! "k2" = None) as Hfresh by (by vm_compute).
  assert (users (storage Scenario.ringing_hub) !! "A"
          = Some (mkUser "alice" online (Some 1000%Z) (Some 1000%Z))) as Husr
    by (by vm_compute).
  assert ("c1" ∈ conversations (storage Scenario.ringing_hub)) as Hknown
    by (apply (bool_decide_unpack _); by vm_compute).
  destruct (start_call_postcondition Scenario.ringing_hub 1 "A" "c1"
              (Scenario.in_conversation "c1" None) 5000 "k2"
              Hws ltac:(done) eq_refl ltac:(done) Hfresh) as [Hcreated _].
  exact (proj1 (Hcreated _ Husr Hknown)).
Defined.

(** ** Who receives a broadcast *)

Lemma not_in_recipients participants u : u ∉ recipients participants (Some u).
Proof. unfold recipients. rewrite list_elem_of_filter. by intros [? _]. Qed.

Lemma elem_of_one_broadcast ids f ids0 f0 (cs : list nat) :
  (ids, f) ∈ broadcasts (Broadcast ids0 f0 :: map (fun c => Send c f0) cs) ->
  ids = ids0 /\ f = f0.
Proof.
  cbn [broadcasts omap list_omap]. rewrite broadcasts_map_send.
  by intros [= -> ->]%list_elem_of_singleton.
Qed.

Lemma broadcasts_app t1 t2 : broadcasts (t1 ++ t2) = broadcasts t1 ++ broadcasts t2.
Proof. unfold broadcasts. apply omap_app. Qed.

Lemma broadcasts_logged t (o : Error + unit) :
  broadcasts (t ++ match o with inl error => [ConsoleError error] | inr _ => [] end)
  = broadcasts t.
Proof. rewrite broadcasts_app. destruct o; cbn; by rewrite app_nil_r. Qed.

(** A body under [if (userId && ...)] that excludes its [userId] from
    what it broadcasts. *)
Lemma if_bound_and_excludes ws payload field body h u ids f :
  userId_of h !! ws = Some u ->
  (forall v p ids f, (ids, f) ∈ broadcasts (effects_of (body u v p h)) -> u ∉ ids) ->
  (ids, f) ∈ broadcasts (effects_of (if_bound_and ws payload field body h)) ->
  u ∉ ids.
Proof.
  intros Hws Hbody.
  destruct (if_bound_and_cases ws payload field body h)
    as [->|[->|(userId & v & p & _ & Hu & _ & ->)]];
    [by intros ?%elem_of_nil..|].
  apply truthy_inv in Hu as [Hu _]. rewrite Hws in Hu. injection Hu as <-.
  apply Hbody.
Qed.

Lemma case_typing_excludes ws payload now h u ids f :
  userId_of h !! ws = Some u ->
  (ids, f) ∈ broadcasts (effects_of (case_typing ws payload now h)) -> u ∉ ids.
Proof.
  intros Hws. unfold case_typing. apply if_bound_and_excludes; [done|].
  intros v p ids' f'. exec.
  intros [-> _]%elem_of_one_broadcast. apply not_in_recipients.
Qed.

Lemma case_toggle_excludes ws payload type h u ids f :
  userId_of h !! ws = Some u ->
  (ids, f) ∈ broadcasts (effects_of (case_toggle ws payload type h)) -> u ∉ ids.
Proof.
  intros Hws. unfold case_toggle. apply if_bound_and_excludes; [done|].
  intros v p ids' f'. exec_all; try (by intros ?%elem_of_nil).
  all: intros [-> _]%elem_of_one_broadcast; apply not_in_recipients.
Qed.

Lemma participants_of_receipts f db conversationId :
  participants_of (with_messageReceipts f db) conversationId
  = participants_of db conversationId.
Proof. done. Qed.

Lemma mark_read_broadcast h userId messageId now ids f :
  (ids, f) ∈ broadcasts (effects_of (mark_read userId messageId now h)) ->
  e_type f = "message-read" /\
  exists m,
    messages (storage h) !! messageId = Some m /\
    ids = map (fun row => cp_userId row.1)
              (participants_of (storage h) (m_conversationId m)) /\
    (is_Some (users (storage h) !! userId) -> userId ∈ ids).
Proof.
  unfold mark_read. exec_all; project; rewrite ?app_nil_r;
    try (by intros ?%elem_of_nil);
    try (by intros [= ]%list_elem_of_singleton);
    try match goal with H : negb _ = _ |- _ => by cbn in H end.
  all: intros [-> ->]%elem_of_one_broadcast; split; [done|].
  all: exists m; split; [done|].
  all: rewrite participants_of_receipts, recipients_all; split; [done|].
  all: match goal with
       | H : filter _ (conversationParticipants _) = ?row :: ?l |- _ =>
           assert (row ∈ row :: l) as Hhere by left;
           rewrite <- H in Hhere; apply list_elem_of_filter in Hhere;
           destruct Hhere as [[Hconv Huser] Hrow];
           intros [user Hu]; apply elem_of_map; exists (row, user);
           split; [done|]; apply elem_of_participants_of;
           rewrite Huser; repeat split; congruence
       end.
Qed.

(** C3, as the code has it: the broadcast of a typing event and of a
    media toggle never has the identity bound to the sending connection
    among its recipients; the message-read broadcast of the read-receipt
    route excludes nobody: it goes to every participant of the message's
    conversation, the reader included. *)
Theorem self_broadcast_exclusion :
  (forall (h : Hub) (ws : nat) (type : string) (payload : option Payload) (now : Z)
          (uuid u : string) (ids : list string) (f : Envelope),
     type ∈ ["typing"; "toggle-mute"; "toggle-video"; "toggle-screen-share"] ->
     userId_of h !! ws = Some u ->
     (ids, f) ∈ broadcasts (effects_of
        (handle (Frame ws (Some (PValue (Some type) payload)) now uuid) h)) ->
     u ∉ ids) /\
  (forall (h : Hub) (userId messageId : string) (now : Z) (ids : list string)
          (f : Envelope),
     (ids, f) ∈ broadcasts (effects_of (handle (MarkRead userId messageId now) h)) ->
     e_type f = "message-read" /\
     exists m,
       messages (storage h) !! messageId = Some m /\
       ids = map (fun row => cp_userId row.1)
                 (participants_of (storage h) (m_conversationId m)) /\
       (is_Some (users (storage h) !! userId) -> userId ∈ ids)).
Proof.
  split.
  - intros h ws type payload now uuid u ids f Hty Hws. unfold handle.
    rewrite !elem_of_cons, elem_of_nil in Hty.
    destruct Hty as [->|[->|[->|[->|[]]]]].
    + rewrite (on_message_live ws "typing" payload now uuid h
                 (case_typing ws payload now)) by live_case.
      cbn [effects_of fst snd]. rewrite broadcasts_logged.
      by apply case_typing_excludes.
    + rewrite (on_message_live ws "toggle-mute" payload now uuid h
                 (case_toggle ws payload "toggle-mute")) by live_case.
      cbn [effects_of fst snd]. rewrite broadcasts_logged.
      by apply case_toggle_excludes.
    + rewrite (on_message_live ws "toggle-video" payload now uuid h
                 (case_toggle ws payload "toggle-video")) by live_case.
      cbn [effects_of fst snd]. rewrite broadcasts_logged.
      by apply case_toggle_excludes.
    + rewrite (on_message_live ws "toggle-screen-share" payload now uuid h
                 (case_toggle ws payload "toggle-screen-share")) by live_case.
      cbn [effects_of fst snd]. rewrite broadcasts_logged.
      by apply case_toggle_excludes.
  - intros h userId messageId now ids f. unfold handle.
    assert (effects_of ((mark_read userId messageId now ;; ret tt) h)
            = effects_of (mark_read userId messageId now h)) as ->.
    { unfold bind, ret. destruct (mark_read userId messageId now h) as [[h1 t1] [e|a]];
        cbn; [done|]. by rewrite app_nil_r. }
    apply mark_read_broadcast.
Qed.

(** C3, refuted as stated: Bob marks Alice's message [m1] read, and the
    message-read broadcast names Bob among its recipients and is written
    to his own socket. *)
Lemma reader_receives_own_read_receipt :
  let t := effects_of (handle (MarkRead "B" "m1" 5000) Scenario.ringing_hub) in
  exists f, e_type f = "message-read" /\ t = [Broadcast ["A"; "B"] f; Send 1 f; Send 2 f].
Proof. eexists. split; [|by vm_compute]. done. Qed.

Lemma self_broadcast_exclusion_witness :
  let r := handle (Frame 1 (Some (PValue (Some "typing")
                      (Some (Scenario.in_conversation "c1" (Some true))))) 5000 "k2")
             Scenario.ringing_hub in
  let f := mkEnvelope "typing-status" (TypingStatus "c1" "A" (Some true)) in
  (["B"], f) ∈ broadcasts (effects_of r) /\ "A" ∉ ["B"].
Proof.
  intros r f.
  assert ((["B"], f) ∈ broadcasts (effects_of r)) as Hin.
  { assert (broadcasts (effects_of r) = [(["B"], f)]) as -> by (by vm_compute).
    by left. }
  split; [exact Hin|].
  apply (proj1 self_broadcast_exclusion Scenario.ringing_hub 1 "typing"
           (Some (Scenario.in_conversation "c1" (Some true))) 5000%Z "k2" "A" ["B"] f).
  - by left.
  - by vm_compute.
  - exact Hin.
Defined.

(** ** The typing case *)

(** Rewriting rows without touching their keys does not change who takes
    part. *)
Lemma participant_ids_map (g : Participant -> Participant) (db : Storage)
    (rows : list Participant) (conv : string) :
  (forall row, cp_conversationId (g row) = cp_conversationId row /\
               cp_userId (g row) = cp_userId row) ->
  map (fun p : Participant * User => cp_userId p.1)
    (omap (fun p => match users db !! cp_userId p with
                    | Some user => Some (p, user)
                    | None => None
                    end)
          (filter (fun p => cp_conversationId p = conv) (map g rows)))
  = map (fun p : Participant * User => cp_userId p.1)
      (omap (fun p => match users db !! cp_userId p with
                      | Some user => Some (p, user)
                      | None => None
                      end)
            (filter (fun p => cp_conversationId p = conv) rows)).
Proof.
  intros Hg. induction rows as [|row rows IH]; [done|].
  cbn [map]. rewrite !filter_cons. destruct (Hg row) as [Hc Hu].
  destruct (decide (cp_conversationId (g row) = conv)) as [Hyes|Hno],
           (decide (cp_conversationId row = conv)) as [Hyes'|Hno'];
    try congruence.
  cbn [omap list_omap]. rewrite Hu.
  destruct (users db !! cp_userId row); cbn [map fst]; [|done].
  rewrite Hu. by f_equal.
Qed.

Lemma recipients_typing_update db conversationId userId isTyping now conv exclude :
  recipients
    (participants_of
       (with_conversationParticipants
          (map (fun p =>
             if decide (cp_conversationId p = conversationId /\ cp_userId p = userId)
             then mkParticipant (cp_conversationId p) (cp_userId p)
                    (default (cp_isTyping p) isTyping) (Some now)
             else p)) db) conv) exclude
  = recipients (participants_of db conv) exclude.
Proof.
  unfold recipients, participants_of. f_equal. project.
  apply participant_ids_map. intros row. by case_decide.
Qed.

Lemma silent_on_nil type : silent_on type [].
Proof. by intros ef f ?%elem_of_nil. Qed.

Lemma silent_on_broadcast type type' ids payload (cs : list nat) :
  type' <> type ->
  silent_on type
    (Broadcast ids (mkEnvelope type' payload)
     :: map (fun c => Send c (mkEnvelope type' payload)) cs).
Proof.
  intros Hne ef f [->|Hin]%elem_of_cons.
  - by intros [= <-].
  - apply elem_of_map in Hin as (c & -> & _). by intros [= <-].
Qed.

Lemma silent_on_logged type t (o : Error + unit) :
  silent_on type t ->
  silent_on type (t ++ match o with inl error => [ConsoleError error] | inr _ => [] end).
Proof.
  intros Ht ef f [Hin|Hin]%elem_of_app; [by apply Ht|].
  destruct o; [|by apply elem_of_nil in Hin].
  by apply list_elem_of_singleton in Hin as ->.
Qed.

Lemma silent_on_error type error : silent_on type [ConsoleError error].
Proof. by intros ef f ->%list_elem_of_singleton. Qed.

Ltac silence :=
  rewrite ?app_nil_r;
  first [ apply silent_on_nil
        | apply silent_on_error
        | apply silent_on_broadcast; done ].

Lemma cases_silent_on_user_typing ws payload now uuid label body h :
  (label, body) ∈ live_cases ws payload now uuid ->
  silent_on "user-typing" (effects_of (body h)).
Proof. intros Hin. each_case Hin; open_case; exec_all; silence. Qed.

Lemma handle_silent_on_user_typing ev h :
  silent_on "user-typing" (effects_of (handle ev h)).
Proof.
  destruct ev as [ws|ws data now uuid|ws now|userId messageId now]; unfold handle.
  - exec. apply silent_on_nil.
  - rewrite on_message_eq. cbn [effects_of fst snd]. apply silent_on_logged.
    pattern (dispatch ws data now uuid h). apply dispatch_elim;
      try (intros; apply silent_on_nil).
    intros label body payload _ Hin.
    by apply (cases_silent_on_user_typing ws payload now uuid label).
  - unfold on_close. exec_all; silence.
  - unfold mark_read. exec_all; rewrite ?app_nil_r; silence.
Qed.

Lemma case_typing_broadcasts ws payload now h :
  broadcasts (effects_of (case_typing ws payload now h))
  = match truthy (userId_of h !! ws), payload with
    | Some u, Some p =>
        match truthy (p_conversationId p) with
        | Some conv =>
            [(recipients (participants_of (storage h) conv) (Some u),
              mkEnvelope "typing-status" (TypingStatus conv u (p_isTyping p)))]
        | None => []
        end
    | _, _ => []
    end.
Proof.
  unfold case_typing, if_bound_and. rewrite bind_read.
  destruct (truthy (userId_of h !! ws)) as [u|]; [|done].
  destruct payload as [p|]; [|done].
  destruct (truthy (p_conversationId p)) as [conv|]; [|done].
  exec. project. cbn [broadcasts omap list_omap]. rewrite broadcasts_map_send.
  by rewrite recipients_typing_update.
Qed.

(** C10, as the switch has it: a frame of type typing runs the first
    typing clause, never the second.  It emits one typing-status broadcast,
    to the other participants of the conversation, when the connection is
    bound and the payload names a conversation, and no broadcast
    otherwise.  No event makes the hub emit a frame of type user-typing. *)
Theorem typing_dispatch :
  (forall (ws : nat) (payload : option Payload) (now : Z) (uuid : string),
     switch (Some "typing") (cases ws payload now uuid) = case_typing ws payload now) /\
  (forall (h : Hub) (ws : nat) (payload : option Payload) (now : Z) (uuid : string),
     broadcasts (effects_of
       (handle (Frame ws (Some (PValue (Some "typing") payload)) now uuid) h))
     = match truthy (userId_of h !! ws), payload with
       | Some u, Some p =>
           match truthy (p_conversationId p) with
           | Some conv =>
               [(recipients (participants_of (storage h) conv) (Some u),
                 mkEnvelope "typing-status" (TypingStatus conv u (p_isTyping p)))]
           | None => []
           end
       | _, _ => []
       end) /\
  (forall (ev : Event) (h : Hub) (ef : Effect) (f : Envelope),
     ef ∈ effects_of (handle ev h) -> frame_of ef = Some f ->
     e_type f <> "user-typing").
Proof.
  split; [done|]. split.
  - intros h ws payload now uuid. unfold handle.
    rewrite (on_message_live ws "typing" payload now uuid h
               (case_typing ws payload now)) by live_case.
    cbn [effects_of fst snd]. rewrite broadcasts_logged.
    apply case_typing_broadcasts.
  - intros ev h. apply handle_silent_on_user_typing.
Qed.

(** C10, refuted as stated: socket 3 never sent user-online; its typing
    frame is handled and emits no broadcast at all. *)
Lemma unbound_typing_emits_nothing :
  handle (Scenario.frame 3 "typing" (Scenario.in_conversation "c1" (Some true)) 5000)
         Scenario.ringing_hub
  = (Scenario.ringing_hub, [], inr tt).
Proof. by vm_compute. Qed.

(** ** The properties on the scenario *)

(** Bob is registered but his socket is closing. *)
Lemma silent_send_witness :
  let h := with_readyState (insert 2%nat CLOSING) Scenario.ringing_hub in
  broadcastToUsers ["B"] "webrtc-offer" (WebrtcOffer "A" "sdp") h
  = (h, [Broadcast ["B"] (mkEnvelope "webrtc-offer" (WebrtcOffer "A" "sdp"))], inr tt).
Proof.
  intros h. apply silent_send. right. exists 2%nat. split; by vm_compute.
Defined.

(** Alice opens a second connection, socket 3, and binds it. *)
Lemma second_connection_replaces_first_witness :
  clients (step (Frame 3 (Some (PValue (Some "user-online")
                           (Some (Scenario.user_online "A")))) 5000 "k2")
             Scenario.ringing_hub) !! "A"
  = Some 3%nat.
Proof.
  apply (second_connection_replaces_first Scenario.ringing_hub 1 3 "A"
           (Scenario.user_online "A") 5000 "k2"); by vm_compute.
Defined.

(** A frame of an unknown type is ignored. *)
Lemma robust_dispatch_witness :
  on_message 1 (Some (PValue (Some "ping") None)) 5000 "k2" Scenario.ringing_hub
  = (Scenario.ringing_hub, [], inr tt).
Proof.
  pose proof (robust_dispatch 1 (Some (PValue (Some "ping") None)) 5000 "k2"
                Scenario.ringing_hub) as (_ & _ & _ & Hunknown & _).
  apply (Hunknown (Some "ping") None); [done|].
  intros label [= <-]. cbn [cases fmap list_fmap fst]. rewrite !not_elem_of_cons.
  repeat split; try done. apply not_elem_of_nil.
Defined.

(** The frames Alice's typing event sends are of type typing-status. *)
Lemma typing_dispatch_witness :
  let ev := Frame 1 (Some (PValue (Some "typing")
                      (Some (Scenario.in_conversation "c1" (Some true))))) 5000 "k2" in
  let f := mkEnvelope "typing-status" (TypingStatus "c1" "A" (Some true)) in
  Send 2 f ∈ effects_of (handle ev Scenario.ringing_hub) /\ e_type f <> "user-typing".
Proof.
  intros ev f.
  assert (Send 2 f ∈ effects_of (handle ev Scenario.ringing_hub)) as Hin.
  { assert (effects_of (handle ev Scenario.ringing_hub)
            = [Broadcast ["B"] f; Send 2 f]) as -> by (by vm_compute).
    right. by left. }
  split; [exact Hin|].
  exact (proj2 (proj2 typing_dispatch) ev Scenario.ringing_hub (Send 2 f) f Hin eq_refl).
Defined.

(** * Further properties of the hub *)

(** ** Delivery *)

Lemma elem_of_delivered h userIds c :
  c ∈ delivered h userIds <->
  exists id, id ∈ userIds /\ clients h !! id = Some c /\ readyState h !! c = Some OPEN.
Proof.
  unfold delivered. rewrite list_elem_of_omap. split.
  - intros (id & Hin & Hsome). exists id. split; [done|].
    destruct (clients h !! id) as [c'|]; [|done].
    case_decide; [|done]. by injection Hsome as ->.
  - intros (id & Hin & Hc & Hopen). exists id. split; [done|].
    by rewrite Hc, decide_True.
Qed.

Lemma delivered_length h userIds : (length (delivered h userIds) <= length userIds)%nat.
Proof.
  unfold delivered. induction userIds as [|id userIds IH]; [done|].
  cbn [omap list_omap length].
  destruct (clients h !! id) as [c|]; [case_decide|]; cbn [length]; lia.
Qed.

(** X1: a broadcast returns normally and leaves the hub as it was; it
    writes its frame to exactly the sockets that are registered for a
    listed identity and open, at most one write per listed identity. *)
Theorem broadcast_reaches_open_sockets
    (h : Hub) (userIds : list string) (type : string) (payload : OutPayload) :
  let r := broadcastToUsers userIds type payload h in
  state_of r = h /\
  outcome_of r = inr tt /\
  (forall c f,
     (c, f) ∈ sends (effects_of r) <->
     f = mkEnvelope type payload /\
     exists id, id ∈ userIds /\ clients h !! id = Some c /\
                readyState h !! c = Some OPEN) /\
  (length (sends (effects_of r)) <= length userIds)%nat.
Proof.
  cbn zeta. rewrite broadcastToUsers_eq. cbn [state_of effects_of outcome_of fst snd].
  rewrite sends_cons_broadcast, sends_map_send.
  split; [done|]. split; [done|]. split.
  - intros c f. rewrite elem_of_map, <- elem_of_delivered. split.
    + by intros (c' & [= -> ->] & Hin).
    + intros [-> Hin]. by exists c.
  - rewrite length_map. apply delivered_length.
Qed.

Lemma open_sends_nil h : open_sends h [].
Proof. by intros c f ?%elem_of_nil. Qed.

Lemma open_sends_error h error : open_sends h [ConsoleError error].
Proof. by intros c f ?%elem_of_nil. Qed.

Lemma open_sends_broadcast h h' ids f :
  readyState h' = readyState h /\ clients h' = clients h ->
  open_sends h (Broadcast ids f :: map (fun c => Send c f) (delivered h' ids)).
Proof.
  intros [Hready _] c f'. rewrite sends_cons_broadcast, sends_map_send, elem_of_map.
  intros (c' & [= -> ->] & (id & _ & _ & Hopen)%elem_of_delivered). by rewrite <- Hready.
Qed.

Lemma sends_logged t (o : Error + unit) :
  sends (t ++ match o with inl error => [ConsoleError error] | inr _ => [] end)
  = sends t.
Proof.
  unfold sends. rewrite omap_app. destruct o; cbn; by rewrite app_nil_r.
Qed.

Lemma open_sends_logged h t (o : Error + unit) :
  open_sends h t ->
  open_sends h (t ++ match o with inl error => [ConsoleError error] | inr _ => [] end).
Proof. intros Ht c f. rewrite sends_logged. apply Ht. Qed.

Ltac open_up :=
  rewrite ?app_nil_r;
  first [ apply open_sends_nil
        | apply open_sends_error
        | apply open_sends_broadcast; by split ].

Lemma cases_open_sends ws payload now uuid label body h :
  (label, body) ∈ live_cases ws payload now uuid ->
  open_sends (state_of (body h)) (effects_of (body h)).
Proof. intros Hin. each_case Hin; open_case; exec_all; open_up. Qed.

(** X2: whatever the event, every frame the hub writes goes to a socket
    that is open in the state the event leaves; the socket of a close
    event and sockets that were never opened get nothing. *)
Theorem frames_go_to_open_sockets (ev : Event) (h : Hub) (c : nat) (f : Envelope) :
  (c, f) ∈ sends (effects_of (handle ev h)) ->
  readyState (state_of (handle ev h)) !! c = Some OPEN.
Proof.
  revert c f. change (open_sends (state_of (handle ev h)) (effects_of (handle ev h))).
  destruct ev as [ws|ws data now uuid|ws now|userId messageId now]; unfold handle.
  - exec. apply open_sends_nil.
  - rewrite on_message_eq. cbn [state_of effects_of fst snd].
    apply open_sends_logged.
    pattern (dispatch ws data now uuid h). apply dispatch_elim;
      try (intros; apply open_sends_nil).
    intros label body payload _ Hin.
    by apply (cases_open_sends ws payload now uuid label).
  - unfold on_close. exec_all; open_up.
  - unfold mark_read. exec_all; open_up.
Qed.

(** ** Signalling relay and guards *)

Lemma case_relay_eq ws p type field wrap h u target :
  userId_of h !! ws = Some u -> u <> "" ->
  p_targetUserId p = Some target -> target <> "" ->
  case_relay ws (Some p) type field wrap h
  = match truthy (field p) with
    | Some blob =>
        (h, Broadcast [target] (mkEnvelope type (wrap u blob))
            :: map (fun c => Send c (mkEnvelope type (wrap u blob))) (delivered h [target]),
         inr tt)
    | None => (h, [], inr tt)
    end.
Proof.
  intros Hws Hu Hp Ht. unfold case_relay.
  rewrite (if_bound_and_run _ _ _ _ _ u target) by done.
  destruct (truthy (field p)) as [blob|]; [apply broadcastToUsers_eq|done].
Qed.

(** X3: the hub relays webrtc-offer, webrtc-answer and ice-candidate
    untouched.  For a bound connection and a payload that names a target,
    a frame whose blob is truthy leaves the hub state as it is and has the
    target as its only recipient: the frame keeps the event type, carries
    the blob with the sender's identity as fromUserId, and is written to
    the target's socket when that is registered and open.  A frame whose
    blob is absent or empty is dropped: nothing changes and nothing is
    emitted. *)
Theorem relay_forwards_to_target
    (h : Hub) (ws : nat) (u target : string) (p : Payload) (now : Z) (uuid : string) :
  userId_of h !! ws = Some u -> u <> "" ->
  p_targetUserId p = Some target -> target <> "" ->
  let relayed type blob out :=
    handle (Frame ws (Some (PValue (Some type) (Some p))) now uuid) h
    = match truthy blob with
      | Some blob =>
          (h, Broadcast [target] (mkEnvelope type (out blob))
              :: map (fun c => Send c (mkEnvelope type (out blob))) (delivered h [target]),
           inr tt)
      | None => (h, [], inr tt)
      end in
  relayed "webrtc-offer" (p_offer p) (WebrtcOffer u) /\
  relayed "webrtc-answer" (p_answer p) (WebrtcAnswer u) /\
  relayed "ice-candidate" (p_candidate p) (IceCandidate u).
Proof.
  intros Hws Hu Hp Ht relayed. subst relayed. cbn beta. unfold handle.
  split; [|split].
  - rewrite (on_message_live ws "webrtc-offer" (Some p) now uuid h
               (case_relay ws (Some p) "webrtc-offer" p_offer WebrtcOffer)) by live_case.
    rewrite (case_relay_eq ws p _ _ _ h u target) by done.
    destruct (truthy (p_offer p)); cbn [state_of effects_of outcome_of fst snd];
      by rewrite ?app_nil_r.
  - rewrite (on_message_live ws "webrtc-answer" (Some p) now uuid h
               (case_relay ws (Some p) "webrtc-answer" p_answer WebrtcAnswer)) by live_case.
    rewrite (case_relay_eq ws p _ _ _ h u target) by done.
    destruct (truthy (p_answer p)); cbn [state_of effects_of outcome_of fst snd];
      by rewrite ?app_nil_r.
  - rewrite (on_message_live ws "ice-candidate" (Some p) now uuid h
               (case_relay ws (Some p) "ice-candidate" p_candidate IceCandidate))
      by live_case.
    rewrite (case_relay_eq ws p _ _ _ h u target) by done.
    destruct (truthy (p_candidate p)); cbn [state_of effects_of outcome_of fst snd];
      by rewrite ?app_nil_r.
Qed.

(** Alice sends Bob an offer; an offer that is the empty string is not
    relayed. *)
Lemma relay_forwards_to_target_witness :
  let offer sdp :=
    Frame 1 (Some (PValue (Some "webrtc-offer")
               (Some (mkPayload None None None None None (Some "B") None (Some sdp)
                        None None None None)))) 5000 "k2" in
  handle (offer "sdp") Scenario.ringing_hub
  = (Scenario.ringing_hub,
     [ Broadcast ["B"] (mkEnvelope "webrtc-offer" (WebrtcOffer "A" "sdp"));
       Send 2 (mkEnvelope "webrtc-offer" (WebrtcOffer "A" "sdp")) ],
     inr tt) /\
  handle (offer "") Scenario.ringing_hub = (Scenario.ringing_hub, [], inr tt).
Proof.
  intros offer.
  assert (userId_of Scenario.ringing_hub !! 1%nat = Some "A") as Hws by (by vm_compute).
  split.
  - destruct (relay_forwards_to_target Scenario.ringing_hub 1 "A" "B"
                (mkPayload None None None None None (Some "B") None (Some "sdp")
                   None None None None) 5000 "k2" Hws ltac:(done) eq_refl ltac:(done))
      as (Hoffer & _ & _).
    subst offer. cbv beta. rewrite Hoffer. by vm_compute.
  - destruct (relay_forwards_to_target Scenario.ringing_hub 1 "A" "B"
                (mkPayload None None None None None (Some "B") None (Some "")
                   None None None None) 5000 "k2" Hws ltac:(done) eq_refl ltac:(done))
      as (Hoffer & _ & _).
    subst offer. cbv beta. by rewrite Hoffer.
Defined.

Lemma if_bound_and_unbound ws payload field body h :
  truthy (userId_of h !! ws) = None ->
  if_bound_and ws payload field body h = (h, [], inr tt).
Proof. intros Hu. unfold if_bound_and. by rewrite bind_read, Hu. Qed.

(** X4: a connection that is not bound to an identity can only bind:
    every frame of another type, whatever its payload, leaves the hub as
    it was, emits nothing and logs nothing. *)
Theorem unbound_connection_is_ignored
    (h : Hub) (ws : nat) (type : option string) (payload : option Payload)
    (now : Z) (uuid : string) :
  truthy (userId_of h !! ws) = None ->
  type <> Some "user-online" ->
  handle (Frame ws (Some (PValue type payload)) now uuid) h = (h, [], inr tt).
Proof.
  intros Hu Hty. unfold handle. rewrite on_message_eq.
  assert (dispatch ws (Some (PValue type payload)) now uuid h = (h, [], inr tt)) as ->; [|done].
  pattern (dispatch ws (Some (PValue type payload)) now uuid h).
  apply dispatch_elim; try done.
  intros label body payload' [= -> ->] Hin.
  each_case Hin; try done; open_case; by apply if_bound_and_unbound.
Qed.

Lemma unbound_connection_is_ignored_witness :
  handle (Frame 3 (Some (PValue (Some "end-call") None)) 5000 "k2") Scenario.ringing_hub
  = (Scenario.ringing_hub, [], inr tt).
Proof. apply unbound_connection_is_ignored; by vm_compute. Defined.

(** X5: a user-online frame whose payload has no userId, or an empty
    one, unbinds the connection instead of binding it: afterwards the
    connection has no truthy userId, while the registry, the store and the
    sockets are as before (the identity bound earlier keeps its registry
    entry) and nothing is emitted. *)
Theorem user_online_without_id_unbinds
    (h : Hub) (ws : nat) (p : Payload) (now : Z) (uuid : string) :
  truthy (p_userId p) = None ->
  let r := handle (Frame ws (Some (PValue (Some "user-online") (Some p))) now uuid) h in
  truthy (userId_of (state_of r) !! ws) = None /\
  clients (state_of r) = clients h /\
  readyState (state_of r) = readyState h /\
  storage (state_of r) = storage h /\
  effects_of r = [] /\
  forall ws', ws' <> ws -> userId_of (state_of r) !! ws' = userId_of h !! ws'.
Proof.
  intros Hp r. subst r. unfold handle.
  rewrite (on_message_live ws "user-online" (Some p) now uuid h
             (case_user_online ws (Some p) now)) by live_case.
  unfold case_user_online. cbn [prop]. rewrite bind_ret, bind_update, Hp.
  cbn [ret state_of effects_of outcome_of fst snd app].
  repeat split; try done.
  - project. unfold assign. destruct (p_userId p) as [s|] eqn:Hs.
    + by rewrite lookup_insert_eq.
    + by rewrite lookup_delete_eq.
  - intros ws' Hne. project. unfold assign. destruct (p_userId p).
    + by rewrite lookup_insert_ne.
    + by rewrite lookup_delete_ne.
Qed.

Lemma user_online_without_id_unbinds_witness :
  clients (state_of (handle (Frame 1 (Some (PValue (Some "user-online")
                               (Some empty_payload))) 5000 "k2")
                       Scenario.ringing_hub))
  = clients Scenario.ringing_hub.
Proof. by apply (user_online_without_id_unbinds Scenario.ringing_hub 1 empty_payload). Defined.

(** X6: an accept-call, decline-call or end-call that names no call, or a
    call that does not exist, is dropped silently: the hub is as before,
    nothing is emitted and nothing is logged. *)
Theorem unknown_call_is_ignored
    (h : Hub) (ws : nat) (type : string) (p : Payload) (now : Z) (uuid : string) :
  type ∈ ["accept-call"; "decline-call"; "end-call"] ->
  (forall callId, truthy (p_callId p) = Some callId ->
     calls (storage h) !! callId = None) ->
  handle (Frame ws (Some (PValue (Some type) (Some p))) now uuid) h = (h, [], inr tt).
Proof.
  intros Hty Hnone. unfold handle.
  assert (forall body : string -> string -> Payload -> Exec unit,
            (forall u callId, calls (storage h) !! callId = None ->
                              body u callId p h = (h, [], inr tt)) ->
            if_bound_and ws (Some p) p_callId body h = (h, [], inr tt)) as Hguard.
  { intros body Hbody. unfold if_bound_and. rewrite bind_read.
    destruct (truthy (userId_of h !! ws)) as [u|]; [|done].
    destruct (truthy (p_callId p)) as [callId|] eqn:Hc; [|done].
    apply Hbody. by apply Hnone. }
  rewrite !elem_of_cons, elem_of_nil in Hty. destruct Hty as [->|[->|[->|[]]]].
  - rewrite (on_message_live ws "accept-call" (Some p) now uuid h
               (case_accept_call ws (Some p) now)) by live_case.
    unfold case_accept_call. rewrite Hguard; [done|].
    intros u callId Hc. exec. by rewrite Hc.
  - rewrite (on_message_live ws "decline-call" (Some p) now uuid h
               (case_decline_call ws (Some p))) by live_case.
    unfold case_decline_call. rewrite Hguard; [done|].
    intros u callId Hc. exec. by rewrite Hc.
  - rewrite (on_message_live ws "end-call" (Some p) now uuid h
               (case_end_call ws (Some p) now)) by live_case.
    unfold case_end_call. rewrite Hguard; [done|].
    intros u callId Hc. exec. by rewrite Hc.
Qed.

Lemma unknown_call_is_ignored_witness :
  handle (Frame 1 (Some (PValue (Some "end-call") (Some (Scenario.on_call "nope"))))
            5000 "k2") Scenario.ringing_hub
  = (Scenario.ringing_hub, [], inr tt).
Proof.
  apply unknown_call_is_ignored.
  - right. right. left.
  - intros callId [Hc _]%truthy_inv. injection Hc as <-. by vm_compute.
Defined.

(** ** Contacts *)

Lemma set_add_NoDup s x : NoDup s -> NoDup (set_add s x).
Proof.
  intros Hs. unfold set_add. case_decide; [done|].
  apply NoDup_app. split; [done|]. split; [|apply NoDup_singleton].
  intros y Hy ->%list_elem_of_singleton. done.
Qed.

Lemma elem_of_set_add s x y : y ∈ set_add s x <-> y ∈ s \/ y = x.
Proof.
  unfold set_add. case_decide as Hin.
  - split; [by left|]. by intros [?| ->].
  - by rewrite elem_of_app, list_elem_of_singleton.
Qed.

Section Contacts.
Variable userId : string.

Let add_row (s : list string) (p : Participant * User) : list string :=
  if decide (cp_userId p.1 <> userId) then set_add s (cp_userId p.1) else s.

Lemma add_rows_NoDup ps s : NoDup s -> NoDup (foldl add_row s ps).
Proof.
  revert s. induction ps as [|p ps IH]; intros s Hs; [done|].
  cbn [foldl]. apply IH. unfold add_row. case_decide; [by apply set_add_NoDup|done].
Qed.

Lemma elem_of_add_rows ps s x :
  x ∈ foldl add_row s ps <->
  x ∈ s \/ (x <> userId /\ exists p, p ∈ ps /\ cp_userId p.1 = x).
Proof.
  revert s. induction ps as [|p ps IH]; intros s; cbn [foldl].
  - split; [by left|]. intros [?|(_ & p & ?%elem_of_nil & _)]; done.
  - rewrite IH. unfold add_row. split.
    + intros [Hin|(Hne & q & Hq & Hx)].
      * case_decide as Hp; [|by left].
        apply elem_of_set_add in Hin as [?| ->]; [by left|].
        right. split; [done|]. exists p. split; [left|done].
      * right. split; [done|]. exists q. split; [by right|done].
    + intros [Hin|(Hne & q & [->|Hq]%elem_of_cons & Hx)].
      * left. case_decide; [|done]. apply elem_of_set_add. by left.
      * left. rewrite decide_True by congruence. apply elem_of_set_add. by right.
      * right. split; [done|]. by exists q.
Qed.

Lemma contacts_from_NoDup (convs : list (string * list (Participant * User))) s :
  NoDup s -> NoDup (foldl (fun s conv => foldl add_row s conv.2) s convs).
Proof.
  revert s. induction convs as [|conv convs IH]; intros s Hs; [done|].
  cbn [foldl]. apply IH. by apply add_rows_NoDup.
Qed.

Lemma elem_of_contacts_from (convs : list (string * list (Participant * User))) s x :
  x ∈ foldl (fun s conv => foldl add_row s conv.2) s convs <->
  x ∈ s \/ (x <> userId /\
            exists conv p, conv ∈ convs /\ p ∈ conv.2 /\ cp_userId p.1 = x).
Proof.
  revert s. induction convs as [|conv convs IH]; intros s; cbn [foldl].
  - split; [by left|]. intros [?|(_ & c & p & ?%elem_of_nil & _)]; done.
  - rewrite IH, elem_of_add_rows. split.
    + intros [[?|(Hne & p & Hp & Hx)]|(Hne & c & p & Hc & Hp & Hx)].
      * by left.
      * right. split; [done|]. exists conv, p. split; [left|done].
      * right. split; [done|]. exists c, p. split; [by right|done].
    + intros [?|(Hne & c & p & [->|Hc]%elem_of_cons & Hp & Hx)].
      * left. by left.
      * left. right. split; [done|]. by exists p.
      * right. split; [done|]. by exists c, p.
Qed.
End Contacts.

Lemma contacts_of_NoDup userId convs : NoDup (contacts_of userId convs).
Proof. unfold contacts_of. apply contacts_from_NoDup, NoDup_nil_2. Qed.

Lemma contacts_of_not_self userId convs : userId ∉ contacts_of userId convs.
Proof.
  unfold contacts_of. rewrite elem_of_contacts_from.
  intros [?%elem_of_nil|[Hne _]]; done.
Qed.

(** The rows [getUserConversations] returns: the conversations the
    user has a participant row in, whatever their order. *)
Lemma elem_of_conversations_of db userId conv ps :
  (conv, ps) ∈ conversations_of db userId <->
  ps = participants_of db conv /\ conv ∈ conversations db /\
  exists mine, mine ∈ conversationParticipants db /\
               cp_conversationId mine = conv /\ cp_userId mine = userId.
Proof.
  unfold conversations_of. cbn zeta.
  assert (conv ∈ map cp_conversationId
                   (filter (fun p => cp_userId p = userId) (conversationParticipants db))
          <-> exists mine, mine ∈ conversationParticipants db /\
                           cp_conversationId mine = conv /\ cp_userId mine = userId)
    as Hids.
  { rewrite elem_of_map. split.
    - intros (mine & -> & [Hu Hin]%list_elem_of_filter). by exists mine.
    - intros (mine & Hin & Hc & Hu). exists mine. split; [done|].
      by apply list_elem_of_filter. }
  case_decide as Hlen.
  - split; [by intros ?%elem_of_nil|]. intros (_ & _ & Hmine).
    apply Hids in Hmine. apply nil_length_inv in Hlen. rewrite Hlen in Hmine.
    by apply elem_of_nil in Hmine.
  - rewrite elem_of_map. split.
    + intros (conv' & [= -> ->] & Hin). rewrite merge_sort_Permutation in Hin.
      apply list_elem_of_filter in Hin as [Hmine Hin]. by rewrite <- Hids.
    + intros (-> & Hin & Hmine). exists conv. split; [done|].
      rewrite merge_sort_Permutation. apply list_elem_of_filter. by rewrite Hids.
Qed.

(** X7: the contacts that hear of a presence change are the identities,
    other than the user, that have a participant row and a user row in a
    conversation the user also has a row in; the list names each of them
    once, however many conversations they share. *)
Theorem contacts_are_co_participants (db : Storage) (userId : string) :
  NoDup (contacts_of userId (conversations_of db userId)) /\
  forall x,
    x ∈ contacts_of userId (conversations_of db userId) <->
    x <> userId /\
    exists conv mine theirs,
      conv ∈ conversations db /\
      mine ∈ conversationParticipants db /\
      cp_conversationId mine = conv /\ cp_userId mine = userId /\
      theirs ∈ conversationParticipants db /\
      cp_conversationId theirs = conv /\ cp_userId theirs = x /\
      is_Some (users db !! x).
Proof.
  split; [apply contacts_of_NoDup|].
  unfold contacts_of.
  - intros x. rewrite elem_of_contacts_from. split.
    + intros [?%elem_of_nil|(Hne & [conv ps] & [row user] & Hconv & Hp & Hx)]; [done|].
      split; [done|]. cbn in Hp, Hx.
      apply elem_of_conversations_of in Hconv as (-> & Hin & mine & Hmine & Hmc & Hmu).
      apply elem_of_participants_of in Hp as (Hrow & Hrc & Huser).
      exists conv, mine, row. subst x. eauto 10.
    + intros (Hne & conv & mine & theirs & Hconv & Hmine & Hmc & Hmu & Hth & Htc & Htu
              & [user Huser]).
      right. split; [done|].
      exists (conv, participants_of db conv), (theirs, user). cbn [fst snd].
      split; [|split; [|done]].
      * apply elem_of_conversations_of. split; [done|]. split; [done|]. by exists mine.
      * apply elem_of_participants_of. by rewrite Htu.
Qed.

(** The contacts computed right after the user's status was stamped, in
    terms of the store before it. *)
Lemma elem_of_contacts_after_status db u (g : User -> User) x :
  x ∈ contacts_of u (conversations_of (with_users (alter g u) db) u) <->
  x <> u /\
  exists conv mine theirs,
    conv ∈ conversations db /\
    mine ∈ conversationParticipants db /\
    cp_conversationId mine = conv /\ cp_userId mine = u /\
    theirs ∈ conversationParticipants db /\
    cp_conversationId theirs = conv /\ cp_userId theirs = x /\
    is_Some (users db !! x).
Proof.
  unfold contacts_of. rewrite elem_of_contacts_from. split.
  - intros [?%elem_of_nil|(Hne & [conv ps] & [row user] & Hconv & Hp & Hx)]; [done|].
    split; [done|]. cbn [fst snd] in Hp, Hx.
    apply elem_of_conversations_of in Hconv as (-> & Hin & mine & Hmine & Hmc & Hmu).
    apply elem_of_participants_of in Hp as (Hrow & Hrc & Huser).
    exists conv, mine, row. repeat split; try done.
    rewrite <- Hx. apply (lookup_alter_is_Some g (users db) u). by exists user.
  - intros (Hne & conv & mine & theirs & Hconv & Hmine & Hmc & Hmu & Hth & Htc & Htu
            & Huser).
    apply (lookup_alter_is_Some g (users db) u) in Huser as [user Huser].
    right. split; [done|].
    exists (conv, participants_of (with_users (alter g u) db) conv), (theirs, user).
    cbn [fst snd]. split; [|split; [|done]].
    + apply elem_of_conversations_of. split; [done|]. split; [done|]. by exists mine.
    + apply elem_of_participants_of. by rewrite Htu.
Qed.

(** C9 (stale close): when the old connection of an identity closes
    after a newer, still open connection was registered for it, the close
    handler removes the identity from the registry, stamps its user row
    offline and broadcasts user-status-changed offline to its contacts:
    the identities, each once and never the user itself, that have a
    participant row and a user row in a conversation the user has a row
    in.  The newer connection stays open, but a send to the identity no
    longer reaches it. *)
Theorem stale_close_evicts_replacement
    (h : Hub) (ws_old ws_new : nat) (u : string) (now : Z) :
  userId_of h !! ws_old = Some u -> u <> "" ->
  clients h !! u = Some ws_new -> ws_new <> ws_old ->
  readyState h !! ws_new = Some OPEN ->
  let r := handle (Close ws_old now) h in
  let h' := state_of r in
  clients h' !! u = None /\
  users (storage h') !! u
    = (fun usr => mkUser (u_username usr) offline (Some now) (Some now))
        <$> users (storage h) !! u /\
  (exists contactIds,
     broadcasts (effects_of r)
       = [(contactIds, mkEnvelope "user-status-changed" (UserStatusChanged u offline))] /\
     sends (effects_of r)
       = map (fun c => (c, mkEnvelope "user-status-changed" (UserStatusChanged u offline)))
             (delivered h' contactIds) /\
     contactIds = contacts_of u (conversations_of (storage h') u) /\
     NoDup contactIds /\
     forall x,
       x ∈ contactIds <->
       x <> u /\
       exists conv mine theirs,
         conv ∈ conversations (storage h) /\
         mine ∈ conversationParticipants (storage h) /\
         cp_conversationId mine = conv /\ cp_userId mine = u /\
         theirs ∈ conversationParticipants (storage h) /\
         cp_conversationId theirs = conv /\ cp_userId theirs = x /\
         is_Some (users (storage h) !! x)) /\
  readyState h' !! ws_new = Some OPEN /\
  forall type payload, sends (effects_of (broadcastToUsers [u] type payload h')) = [].
Proof.
  intros Hws Hu Hnew Hne Hopen r h'. subst r h'.
  unfold handle. rewrite bind_update.
  rewrite (on_close_eq ws_old now _ u) by done.
  cbn [state_of effects_of fst snd].
  assert (Hgone : clients (with_storage (with_users
        (alter (fun usr => mkUser (u_username usr) offline (Some now) (Some now)) u))
      (with_clients (delete u) (with_readyState <[ws_old:=CLOSED]> h))) !! u = None).
  { cbn. apply lookup_delete_eq. }
  split; [done|]. split; [|split; [|split]].
  - cbn. by rewrite lookup_alter_eq.
  - eexists. split; [|split; [|split; [done|split]]].
    + cbn [broadcasts omap list_omap]. by rewrite broadcasts_map_send.
    + by rewrite sends_cons_broadcast, sends_map_send.
    + apply contacts_of_NoDup.
    + intros x. apply elem_of_contacts_after_status.
  - cbn. by rewrite lookup_insert_ne.
  - intros type payload. by rewrite broadcastToUsers_eq, delivered_singleton, Hgone.
Qed.

(** Alice's first socket closes after her second one was bound: she is
    no longer registered, and Bob, her one contact, is told. *)
Lemma stale_close_evicts_replacement_witness :
  let h := run (Scenario.ringing_events
                  ++ [ Connection 3;
                       Scenario.frame 3 "user-online" (Scenario.user_online "A") 4000 ])
               Scenario.hub in
  let r := handle (Close 1 5000) h in
  clients (state_of r) !! "A" = None /\
  broadcasts (effects_of r)
  = [(["B"], mkEnvelope "user-status-changed" (UserStatusChanged "A" offline))].
Proof.
  intros h r.
  destruct (stale_close_evicts_replacement h 1 3 "A" 5000)
    as (Hgone & _ & (contactIds & Hb & _ & -> & _) & _); [by vm_compute..|].
  split; [exact Hgone|]. subst r. rewrite Hb. by vm_compute.
Defined.

(** ** What events leave alone *)

Lemma cases_clients ws payload now uuid label body h :
  (label, body) ∈ live_cases ws payload now uuid ->
  label <> "user-online" ->
  clients (state_of (body h)) = clients h.
Proof. intros Hin Hne. each_case Hin; try done; open_case; exec_all; done. Qed.

(** X8: the registry changes by user-online and by close only: a
    connection, a read receipt, and a frame of any other type (also a
    malformed or failing one) leave every registry entry as it was. *)
Theorem registry_changes_by_bind_and_close_only (ev : Event) (h : Hub) :
  frame_type ev <> Some "user-online" ->
  (forall ws now, ev <> Close ws now) ->
  clients (step ev h) = clients h.
Proof.
  intros Hty Hclose. unfold step.
  destruct ev as [ws|ws data now uuid|ws now|userId messageId now]; unfold handle.
  - exec. done.
  - rewrite on_message_eq. cbn [state_of fst].
    pattern (dispatch ws data now uuid h). apply dispatch_elim; try done.
    intros label body payload -> Hin.
    apply (cases_clients ws payload now uuid label); [done|].
    intros ->. by apply Hty.
  - by destruct (Hclose ws now).
  - unfold mark_read. exec_all; done.
Qed.

Lemma registry_changes_by_bind_and_close_only_witness :
  clients (step (Scenario.frame 2 "accept-call" (Scenario.on_call "k1") 4000)
                Scenario.ringing_hub)
  = clients Scenario.ringing_hub.
Proof. by apply registry_changes_by_bind_and_close_only. Defined.

Lemma participant_key_typing conversationId userId isTyping now rows :
  map participant_key
    (map (fun p =>
            if decide (cp_conversationId p = conversationId /\ cp_userId p = userId)
            then mkParticipant (cp_conversationId p) (cp_userId p)
                   (default (cp_isTyping p) isTyping) (Some now)
            else p) rows)
  = map participant_key rows.
Proof.
  induction rows as [|row rows IH]; [done|]. cbn [map]. rewrite IH. f_equal.
  by case_decide.
Qed.

Ltac same_directory :=
  unfold directory; project;
  rewrite ?dom_alter_L, ?participant_key_typing; done.

Lemma cases_directory ws payload now uuid label body h :
  (label, body) ∈ live_cases ws payload now uuid ->
  directory (storage (state_of (body h))) = directory (storage h).
Proof. intros Hin. each_case Hin; open_case; exec_all; same_directory. Qed.

(** X9: no event the hub handles creates or deletes a user, a
    conversation, a membership or a message: the set of user ids, the
    conversations, the (conversation, user) pairs of the participant rows
    and the message table are the same after every event. *)
Theorem events_keep_the_directory (ev : Event) (h : Hub) :
  directory (storage (step ev h)) = directory (storage h).
Proof.
  unfold step.
  destruct ev as [ws|ws data now uuid|ws now|userId messageId now]; unfold handle.
  - exec. done.
  - rewrite on_message_eq. cbn [state_of fst].
    pattern (dispatch ws data now uuid h). apply dispatch_elim; try done.
    intros label body payload _ Hin. by apply (cases_directory ws payload now uuid label).
  - unfold on_close. exec_all; same_directory.
  - unfold mark_read. exec_all; same_directory.
Qed.

(** ** Call participants *)

Lemma call_participant_key_media callId userId data rows :
  map call_participant_key
    (map (fun k =>
            if decide (k_callId k = callId /\ k_userId k = userId)
            then apply_media data k else k) rows)
  = map call_participant_key rows.
Proof.
  induction rows as [|row rows IH]; [done|]. cbn [map]. rewrite IH. f_equal.
  by case_decide.
Qed.

Ltac grows :=
  project; rewrite ?call_participant_key_media, ?map_app;
  first [ done | by apply prefix_app_r ].

Lemma cases_call_participants ws payload now uuid label body h :
  (label, body) ∈ live_cases ws payload now uuid ->
  map call_participant_key (callParticipants (storage h))
    `prefix_of` map call_participant_key (callParticipants (storage (state_of (body h)))).
Proof. intros Hin. each_case Hin; open_case; exec_all; grows. Qed.

(** X10: call-participant rows are history: no event removes or
    reorders one, moves its join time, or records that the participant
    left.  The (call, user, joinedAt, leftAt) of the rows before an event
    are a prefix of those after it. *)
Theorem call_participants_only_grow (ev : Event) (h : Hub) :
  map call_participant_key (callParticipants (storage h))
    `prefix_of` map call_participant_key (callParticipants (storage (step ev h))).
Proof.
  unfold step.
  destruct ev as [ws|ws data now uuid|ws now|userId messageId now]; unfold handle.
  - exec. done.
  - rewrite on_message_eq. cbn [state_of fst].
    pattern (dispatch ws data now uuid h). apply dispatch_elim; try done.
    intros label body payload _ Hin.
    by apply (cases_call_participants ws payload now uuid label).
  - unfold on_close. exec_all; grows.
  - unfold mark_read. exec_all; grows.
Qed.

Lemma case_accept_call_participants ws p now h u usr callId c :
  userId_of h !! ws = Some u -> u <> "" ->
  users (storage h) !! u = Some usr ->
  p_callId p = Some callId -> callId <> "" ->
  calls (storage h) !! callId = Some c ->
  callParticipants (storage (state_of (case_accept_call ws (Some p) now h)))
  = callParticipants (storage h)
      ++ [mkCallParticipant callId u (Some now) None false false false].
Proof.
  intros Hws Hu Husr Hp Hid Hc. unfold case_accept_call.
  rewrite (if_bound_and_run _ _ _ _ _ u callId) by done.
  exec_under ltac:(rewrite ?Hc, ?Husr).
  destruct (truthy (c_conversationId c)); exec; by project.
Qed.

(** X11: accept-call does not look for an earlier row: each accept-call
    of a bound, existing user on an existing call appends one more
    call-participant row for that user, with fresh media flags, also when
    the user already has a row for the call. *)
Theorem accept_call_appends_a_participant_row
    (h : Hub) (ws : nat) (u : string) (usr : User) (callId : string) (c : Call)
    (p : Payload) (now : Z) (uuid : string) :
  userId_of h !! ws = Some u -> u <> "" ->
  users (storage h) !! u = Some usr ->
  p_callId p = Some callId -> callId <> "" ->
  calls (storage h) !! callId = Some c ->
  callParticipants (storage
    (step (Frame ws (Some (PValue (Some "accept-call") (Some p))) now uuid) h))
  = callParticipants (storage h)
      ++ [mkCallParticipant callId u (Some now) None false false false].
Proof.
  intros Hws Hu Husr Hp Hid Hc. unfold step, handle.
  rewrite (on_message_live ws "accept-call" (Some p) now uuid h
             (case_accept_call ws (Some p) now)) by live_case.
  cbn [state_of fst].
  by apply (case_accept_call_participants ws p now h u usr callId c).
Qed.

(** Alice, who started [k1] and has a row for it, accepts her own call. *)
Lemma accept_call_appends_a_participant_row_witness :
  callParticipants (storage
    (step (Frame 1 (Some (PValue (Some "accept-call") (Some (Scenario.on_call "k1"))))
             4000 "k2") Scenario.ringing_hub))
  = callParticipants (storage Scenario.ringing_hub)
      ++ [mkCallParticipant "k1" "A" (Some 4000%Z) None false false false].
Proof.
  apply (accept_call_appends_a_participant_row Scenario.ringing_hub 1 "A"
           (mkUser "alice" online (Some 1000%Z) (Some 1000%Z)) "k1"
           (mkCall (Some "c1") "A" voice initiated None None None)); by vm_compute.
Defined.

(** ** Media toggles *)

Lemma case_toggle_rows ws p type h u callId :
  type ∈ ["toggle-mute"; "toggle-video"; "toggle-screen-share"] ->
  userId_of h !! ws = Some u -> u <> "" ->
  p_callId p = Some callId -> callId <> "" ->
  Forall2 (toggled type u callId p)
    (callParticipants (storage h))
    (callParticipants (storage (state_of (case_toggle ws (Some p) type h)))).
Proof.
  intros Hty Hws Hu Hp Hid. unfold case_toggle.
  rewrite (if_bound_and_run _ _ _ _ _ u callId) by done.
  set (data := mkMediaPatch
                 (if decide (type = "toggle-mute") then p_isMuted p else None)
                 (if decide (type = "toggle-video") then p_isVideoOff p else None)
                 (if decide (type = "toggle-screen-share")
                  then p_isScreenSharing p else None)).
  assert (Forall2 (toggled type u callId p) (callParticipants (storage h))
            (map (fun k =>
                    if decide (k_callId k = callId /\ k_userId k = u)
                    then apply_media data k
                    else k)
                 (callParticipants (storage h)))) as Hrows.
  { subst data. induction (callParticipants (storage h)) as [|k rows IH]; [constructor|].
    cbn [map]. constructor; [|done]. unfold toggled.
    rewrite !elem_of_cons, elem_of_nil in Hty.
    destruct Hty as [->|[->|[->|[]]]];
      case_decide as Hmine; unfold apply_media, call_participant_key;
      cbn [k_callId k_userId k_joinedAt k_leftAt k_isMuted k_isVideoOff k_isScreenSharing
           set_isMuted set_isVideoOff set_isScreenSharing].
    all: repeat case_decide; try (exfalso; tauto || (destruct_and?; done)).
    all: cbn; repeat split; try done; tauto. }
  assert (set_isMuted data = None -> set_isVideoOff data = None ->
          set_isScreenSharing data = None ->
          forall rows, Forall2 (toggled type u callId p) rows rows) as Hsame.
  { subst data. cbn [set_isMuted set_isVideoOff set_isScreenSharing].
    intros Hm Hv Hs rows.
    induction rows as [|k rows IH]; [constructor|].
    constructor; [|done]. unfold toggled. repeat split; try done.
    - destruct (decide (type = "toggle-mute" /\ k_callId k = callId /\ k_userId k = u))
        as [[Ht _]|]; [|done].
      rewrite decide_True in Hm by done. by rewrite Hm.
    - destruct (decide (type = "toggle-video" /\ k_callId k = callId /\ k_userId k = u))
        as [[Ht _]|]; [|done].
      rewrite decide_True in Hv by done. by rewrite Hv.
    - destruct (decide (type = "toggle-screen-share" /\ k_callId k = callId /\ k_userId k = u))
        as [[Ht _]|]; [|done].
      rewrite decide_True in Hs by done. by rewrite Hs. }
  exec.
  destruct (updateCallParticipant_cases callId u data h) as [(Hm & Hv & Hs & ->)| ->].
  - exec. project. auto.
  - exec_all; by project.
Qed.

(** X12: a media toggle from a bound connection changes call-participant
    rows in place and only as its type says: rows of other users or other
    calls are untouched, no row is added or removed, join and leave times
    stay, toggle-mute changes nothing but isMuted, toggle-video nothing but
    isVideoOff, toggle-screen-share nothing but isScreenSharing, and the
    flag takes the payload's value (it stays when the payload has none). *)
Theorem toggle_changes_one_flag_of_own_rows
    (h : Hub) (ws : nat) (type u callId : string) (p : Payload) (now : Z) (uuid : string) :
  type ∈ ["toggle-mute"; "toggle-video"; "toggle-screen-share"] ->
  userId_of h !! ws = Some u -> u <> "" ->
  p_callId p = Some callId -> callId <> "" ->
  Forall2 (toggled type u callId p)
    (callParticipants (storage h))
    (callParticipants (storage
       (step (Frame ws (Some (PValue (Some type) (Some p))) now uuid) h))).
Proof.
  intros Hty Hws Hu Hp Hid. unfold step, handle.
  assert ((type, case_toggle ws (Some p) type) ∈ live_cases ws (Some p) now uuid) as Hin.
  { rewrite !elem_of_cons, elem_of_nil in Hty.
    destruct Hty as [->|[->|[->|[]]]]; live_case. }
  rewrite (on_message_live ws type (Some p) now uuid h _ Hin). cbn [state_of fst].
  by apply case_toggle_rows.
Qed.

Lemma toggle_changes_one_flag_of_own_rows_witness :
  Forall2 (toggled "toggle-mute" "A" "k1"
             (mkPayload None None None None (Some "k1") None None None None
                        (Some true) None None))
    (callParticipants (storage Scenario.ringing_hub))
    (callParticipants (storage
       (step (Frame 1 (Some (PValue (Some "toggle-mute")
                 (Some (mkPayload None None None None (Some "k1") None None None None
                          (Some true) None None)))) 5000 "k2")
             Scenario.ringing_hub))).
Proof.
  apply (toggle_changes_one_flag_of_own_rows Scenario.ringing_hub 1 "toggle-mute" "A" "k1");
    [by left|by vm_compute..].
Defined.

(** ** Membership is not checked on the socket *)

Lemma in_conversation_false db conversationId userId row :
  in_conversation db conversationId userId = false ->
  row ∈ conversationParticipants db ->
  ~ (cp_conversationId row = conversationId /\ cp_userId row = userId).
Proof.
  unfold in_conversation. intros Hno Hin Hrow.
  destruct (filter _ (conversationParticipants db)) as [|r l] eqn:Hf; [|done].
  assert (row ∈ filter (fun p => cp_conversationId p = conversationId /\ cp_userId p = userId)
                  (conversationParticipants db)) as Hin'
    by by apply list_elem_of_filter.
  rewrite Hf in Hin'. by apply elem_of_nil in Hin'.
Qed.

Lemma map_id_on {A} (g : A -> A) (l : list A) :
  (forall x, x ∈ l -> g x = x) -> map g l = l.
Proof.
  induction l as [|x l IH]; intros Hg; [done|]. cbn [map]. rewrite Hg by left.
  f_equal. apply IH. intros y Hy. apply Hg. by right.
Qed.

Lemma filter_all {A} (P : A -> Prop) `{forall x, Decision (P x)} (l : list A) :
  (forall x, x ∈ l -> P x) -> filter P l = l.
Proof.
  induction l as [|x l IH]; intros HP; [done|].
  rewrite filter_cons_True by (apply HP; left). f_equal. apply IH.
  intros y Hy. apply HP. by right.
Qed.

(** X13: the typing handler does not check that the sender takes part in
    the conversation it names: a typing frame from a bound identity without
    a participant row there changes nothing in the hub, yet its
    typing-status goes to every participant of that conversation. *)
Theorem typing_reaches_conversations_of_others
    (h : Hub) (ws : nat) (u conv : string) (p : Payload) (now : Z) (uuid : string) :
  userId_of h !! ws = Some u -> u <> "" ->
  p_conversationId p = Some conv -> conv <> "" ->
  in_conversation (storage h) conv u = false ->
  let userIds := map (fun row => cp_userId row.1) (participants_of (storage h) conv) in
  let frame := mkEnvelope "typing-status" (TypingStatus conv u (p_isTyping p)) in
  handle (Frame ws (Some (PValue (Some "typing") (Some p))) now uuid) h
  = (h, Broadcast userIds frame :: map (fun c => Send c frame) (delivered h userIds),
     inr tt).
Proof.
  intros Hws Hu Hp Hconv Hout userIds frame. unfold handle.
  rewrite (on_message_live ws "typing" (Some p) now uuid h
             (case_typing ws (Some p) now)) by live_case.
  unfold case_typing. rewrite (if_bound_and_run _ _ _ _ _ u conv) by done.
  exec.
  assert (with_storage
            (with_conversationParticipants
               (map (fun q =>
                  if decide (cp_conversationId q = conv /\ cp_userId q = u)
                  then mkParticipant (cp_conversationId q) (cp_userId q)
                         (default (cp_isTyping q) (p_isTyping p)) (Some now)
                  else q))) h = h) as ->.
  { destruct h as [cl rs uo [us cv la cps ms mr cs ks]].
    unfold with_storage, with_conversationParticipants. cbn. do 2 f_equal.
    apply map_id_on. intros row Hrow. rewrite decide_False; [done|].
    by apply (in_conversation_false _ _ _ row Hout). }
  assert (recipients (participants_of (storage h) conv) (Some u) = userIds) as ->.
  { subst userIds. unfold recipients. apply filter_all.
    intros x ([row user] & -> & Hin)%elem_of_map [= Hx].
    apply elem_of_participants_of in Hin as (Hrow & Hc & _).
    by apply (in_conversation_false _ _ _ row Hout Hrow). }
  by rewrite app_nil_r.
Qed.

Lemma typing_reaches_conversations_of_others_witness :
  effects_of (handle (Frame 3 (Some (PValue (Some "typing")
                 (Some (Scenario.in_conversation "c1" (Some true))))) 5000 "k2") carol_hub)
  = [ Broadcast ["A"; "B"] (mkEnvelope "typing-status" (TypingStatus "c1" "C" (Some true)));
      Send 1 (mkEnvelope "typing-status" (TypingStatus "c1" "C" (Some true)));
      Send 2 (mkEnvelope "typing-status" (TypingStatus "c1" "C" (Some true))) ].
Proof.
  rewrite (typing_reaches_conversations_of_others carol_hub 3 "C" "c1"
             (Scenario.in_conversation "c1" (Some true)) 5000 "k2");
    by vm_compute.
Defined.

(** ** Read receipts *)

(** X14: the read-receipt route answers without touching anything when
    there is nothing to record: 404 for an unknown message, 403 when the
    caller has no participant row in the message's conversation, 200 for
    the caller's own message.  In each case the hub is as before, nothing
    is broadcast and nothing is logged. *)
Theorem mark_read_refusals (h : Hub) (userId messageId : string) (now : Z) :
  (messages (storage h) !! messageId = None ->
   mark_read userId messageId now h = (h, [], inr 404%nat)) /\
  (forall m,
     messages (storage h) !! messageId = Some m ->
     in_conversation (storage h) (m_conversationId m) userId = false ->
     mark_read userId messageId now h = (h, [], inr 403%nat)) /\
  (forall m,
     messages (storage h) !! messageId = Some m ->
     in_conversation (storage h) (m_conversationId m) userId = true ->
     m_senderId m = userId ->
     mark_read userId messageId now h = (h, [], inr 200%nat)).
Proof.
  unfold mark_read, in_conversation. split; [|split].
  - intros Hm. exec. by rewrite Hm.
  - intros m Hm Hout. exec. rewrite Hm. exec.
    by destruct (filter _ (conversationParticipants (storage h))).
  - intros m Hm Hin Hown. exec. rewrite Hm. exec.
    destruct (filter _ (conversationParticipants (storage h))); [done|].
    cbn [negb]. by rewrite decide_True.
Qed.

Lemma mark_read_refusals_witness :
  mark_read "A" "m1" 5000 Scenario.ringing_hub = (Scenario.ringing_hub, [], inr 200%nat).
Proof.
  apply (proj2 (proj2 (mark_read_refusals Scenario.ringing_hub "A" "m1" 5000))
           (mkMessage "c1" "A")); by vm_compute.
Defined.

Lemma stamp_first_read messageId userId now rows :
  filter (fun r => r_messageId r = messageId /\ r_userId r = userId) rows <> [] ->
  exists r t rest,
    filter (fun r => r_messageId r = messageId /\ r_userId r = userId)
           (stamp_first messageId userId now rows) = r :: rest /\
    r_readAt r = Some t /\
    (t = now \/ exists r0, r0 ∈ rows /\ r_readAt r0 = Some t /\
                 r_messageId r0 = messageId /\ r_userId r0 = userId) /\
    r_messageId r = messageId /\ r_userId r = userId.
Proof.
  induction rows as [|r rows IH]; [done|]. cbn [stamp_first]. rewrite filter_cons.
  case_decide as Hr.
  - intros _. destruct (r_readAt r) as [t|] eqn:Ht.
    + exists r, t, (filter (fun r => r_messageId r = messageId /\ r_userId r = userId) rows).
      rewrite filter_cons_True by done. split; [done|]. split; [done|].
      split; [|done]. right. exists r. split; [left|]. tauto.
    + eexists (mkReceipt _ _ _), now, _. rewrite filter_cons_True by done.
      split; [done|]. cbn. tauto.
  - intros Hne. destruct (IH Hne) as (r' & t & rest & Hf & Ht & Hfrom & Hkey).
    exists r', t, rest. rewrite filter_cons_False by done. split; [done|].
    split; [done|]. split; [|done].
    destruct Hfrom as [->|(r0 & Hin & Hrest)]; [by left|].
    right. exists r0. split; [by right|done].
Qed.

Lemma stamp_first_stamped messageId userId now rows r rest t :
  filter (fun r => r_messageId r = messageId /\ r_userId r = userId) rows = r :: rest ->
  r_readAt r = Some t ->
  stamp_first messageId userId now rows = rows.
Proof.
  induction rows as [|r0 rows IH]; [done|]. cbn [stamp_first]. rewrite filter_cons.
  case_decide as Hr.
  - intros [= -> _] Ht. by rewrite Ht.
  - intros Hf Ht. f_equal. by apply IH.
Qed.

(** The state [markMessageRead] leaves when it returns. *)
Lemma markMessageRead_done messageId userId now h :
  outcome_of (markMessageRead messageId userId now h) = inr tt ->
  exists r t rest,
    filter (fun r => r_messageId r = messageId /\ r_userId r = userId)
           (messageReceipts (storage (state_of (markMessageRead messageId userId now h))))
      = r :: rest /\
    r_readAt r = Some t /\
    (t = now \/ exists r0, r0 ∈ messageReceipts (storage h) /\ r_readAt r0 = Some t /\
                 r_messageId r0 = messageId /\ r_userId r0 = userId) /\
    users (storage (state_of (markMessageRead messageId userId now h))) = users (storage h) /\
    effects_of (markMessageRead messageId userId now h) = [].
Proof.
  unfold markMessageRead. rewrite bind_read.
  destruct (filter _ (messageReceipts (storage h))) as [|r0 rest0] eqn:Hf.
  - rewrite !bind_read.
    destruct (messages (storage h) !! messageId); [|done].
    destruct (users (storage h) !! userId); [|done].
    intros _. exec. project.
    exists (mkReceipt messageId userId (Some now)), now, [].
    rewrite filter_app, Hf. rewrite filter_cons_True by done.
    split; [done|]. split; [done|]. split; [by left|done].
  - intros _. exec. project.
    destruct (stamp_first_read messageId userId now (messageReceipts (storage h)))
      as (r & t & rest & Hr & Ht & Hfrom & _); [by rewrite Hf|].
    exists r, t, rest. done.
Qed.

(** X15: the first read wins.  Once [markMessageRead] has returned for a
    message and a reader, marking the same message read again for that
    reader, at any later time, changes nothing: the recorded read time is
    kept and no second receipt is made. *)
Theorem mark_message_read_again_is_a_no_op
    (h : Hub) (messageId userId : string) (now later : Z) :
  outcome_of (markMessageRead messageId userId now h) = inr tt ->
  let h1 := state_of (markMessageRead messageId userId now h) in
  markMessageRead messageId userId later h1 = (h1, [], inr tt).
Proof.
  intros Hdone h1.
  destruct (markMessageRead_done messageId userId now h Hdone)
    as (r & t & rest & Hf & Ht & _). fold h1 in Hf.
  unfold markMessageRead. rewrite bind_read, Hf. exec.
  clearbody h1. destruct h1 as [cl rs uo [us cv la cps ms mr cs ks]].
  unfold with_storage, with_messageReceipts. cbn in *.
  by rewrite (stamp_first_stamped _ _ _ _ r rest t Hf Ht).
Qed.

Lemma mark_message_read_again_is_a_no_op_witness :
  let h1 := state_of (markMessageRead "m1" "B" 5000 Scenario.ringing_hub) in
  markMessageRead "m1" "B" 9000 h1 = (h1, [], inr tt).
Proof. apply mark_message_read_again_is_a_no_op. by vm_compute. Defined.

(** X16: a read that was recorded is reported: after [markMessageRead]
    has returned for a reader who has a user row, [getMessageReadBy] lists
    that reader for the message, with the time of this call or with a read
    time recorded before. *)
Theorem recorded_read_is_listed
    (h : Hub) (messageId userId : string) (user : User) (now : Z) :
  users (storage h) !! userId = Some user ->
  outcome_of (markMessageRead messageId userId now h) = inr tt ->
  exists t,
    (user, t) ∈ read_by (storage (state_of (markMessageRead messageId userId now h)))
                  messageId /\
    (t = now \/ exists r0, r0 ∈ messageReceipts (storage h) /\ r_readAt r0 = Some t /\
                 r_messageId r0 = messageId /\ r_userId r0 = userId).
Proof.
  intros Huser Hdone.
  destruct (markMessageRead_done messageId userId now h Hdone)
    as (r & t & rest & Hf & Ht & Hfrom & Husers & _).
  exists t. split; [|done].
  assert (r ∈ filter (fun r => r_messageId r = messageId /\ r_userId r = userId)
            (messageReceipts (storage (state_of (markMessageRead messageId userId now h)))))
    as [[Hm Hu] Hin]%list_elem_of_filter by (rewrite Hf; left).
  unfold read_by. apply list_elem_of_omap. exists r. split.
  - apply list_elem_of_filter. split; [|done]. split; [done|]. by rewrite Ht.
  - by rewrite Husers, Hu, Huser, Ht.
Qed.

Lemma recorded_read_is_listed_witness :
  exists t,
    (mkUser "bob" online (Some 2000%Z) (Some 2000%Z), t)
      ∈ read_by (storage (state_of (markMessageRead "m1" "B" 5000 Scenario.ringing_hub)))
          "m1" /\
    (t = 5000%Z \/ exists r0, r0 ∈ messageReceipts (storage Scenario.ringing_hub) /\
                     r_readAt r0 = Some t /\ r_messageId r0 = "m1" /\ r_userId r0 = "B").
Proof. apply recorded_read_is_listed; by vm_compute. Defined.

(** ** Leaving a conversation *)

(** X17: [removeParticipant] and [kickParticipant] delete the rows of
    one (conversation, user) pair and nothing else.  Afterwards
    [isUserInConversation] answers false for the pair, a broadcast to the
    conversation no longer names the user (so the event that announces the
    leave does not reach the one who left), and the recipients of every
    other conversation are as before. *)
Theorem removed_participant_is_gone (h : Hub) (conversationId userId : string) :
  let h' := state_of (removeParticipant conversationId userId h) in
  kickParticipant conversationId userId h = removeParticipant conversationId userId h /\
  (forall row,
     row ∈ conversationParticipants (storage h') <->
     row ∈ conversationParticipants (storage h) /\
     ~ (cp_conversationId row = conversationId /\ cp_userId row = userId)) /\
  isUserInConversation conversationId userId h' = (h', [], inr false) /\
  (forall type payload exclude ids f,
     (ids, f) ∈ broadcasts (effects_of
        (broadcastToConversation conversationId type payload exclude h')) ->
     userId ∉ ids) /\
  (forall other exclude,
     other <> conversationId ->
     recipients (participants_of (storage h') other) exclude
     = recipients (participants_of (storage h) other) exclude).
Proof.
  intros h'. subst h'. unfold removeParticipant. exec. project.
  split; [done|].
  assert (forall row,
     row ∈ filter (fun p => ~ (cp_conversationId p = conversationId /\ cp_userId p = userId))
             (conversationParticipants (storage h)) <->
     row ∈ conversationParticipants (storage h) /\
     ~ (cp_conversationId row = conversationId /\ cp_userId row = userId)) as Hrows.
  { intros row. rewrite list_elem_of_filter. tauto. }
  split; [exact Hrows|]. split; [|split].
  - unfold isUserInConversation. exec. project.
    destruct (filter _ (filter _ _)) as [|row rest] eqn:Hf; [done|].
    assert (row ∈ row :: rest) as Hin by left. rewrite <- Hf in Hin.
    apply list_elem_of_filter in Hin as [Hmine Hin].
    apply list_elem_of_filter in Hin as [Hnot _]. done.
  - intros type payload exclude ids f. rewrite broadcastToConversation_eq.
    cbn [effects_of fst snd]. intros [-> _]%elem_of_one_broadcast.
    intros (_ & row & Hrow & Hc & Hu & _)%elem_of_recipients. project.
    apply list_elem_of_filter in Hrow as [Hnot _]. by apply Hnot.
  - intros other exclude Hne. unfold recipients, participants_of. project.
    do 3 f_equal. rewrite list_filter_filter. apply list_filter_iff.
    intros row. split; [tauto|]. intros Hc. split; [done|]. intros [Hc' _]. congruence.
Qed.

(** * Message reactions *)

Lemma same_reaction_eq messageId userId emoji r :
  same_reaction messageId userId emoji r <-> r = mkReaction messageId userId emoji.
Proof.
  unfold same_reaction. destruct r as [m u e]; cbn. split.
  - by intros (-> & -> & ->).
  - by intros [= -> -> ->].
Qed.

(** X18: [addReaction] never makes a second row for the same message,
    user and emoji.  The row it returns is in the table it leaves and is
    that reaction; the table gains at most that row; adding the same
    reaction again returns the same row and leaves the table as it is; a
    table without duplicates stays without duplicates. *)
Theorem add_reaction_is_idempotent
    (db : Storage) (messageId userId emoji : string) (table table' : list Reaction)
    (r : Reaction) :
  addReaction db messageId userId emoji table = inr (table', r) ->
  r = mkReaction messageId userId emoji /\
  (forall x, x ∈ table' <-> x ∈ table \/ x = r) /\
  addReaction db messageId userId emoji table' = inr (table', r) /\
  (NoDup table -> NoDup table').
Proof.
  unfold addReaction.
  destruct (filter (same_reaction messageId userId emoji) table) as [|existing rest] eqn:Hf.
  - destruct (messages db !! messageId); [|done].
    destruct (users db !! userId); [|done].
    intros [= <- <-]. split; [done|]. split; [|split].
    + intros x. by rewrite elem_of_app, list_elem_of_singleton.
    + rewrite filter_app, Hf. rewrite filter_cons_True by done. done.
    + intros Hnd. apply NoDup_app. split; [done|]. split; [|apply NoDup_singleton].
      intros x Hx ->%list_elem_of_singleton.
      assert (mkReaction messageId userId emoji
                ∈ filter (same_reaction messageId userId emoji) table) as Hin
        by by apply list_elem_of_filter.
      rewrite Hf in Hin. by apply elem_of_nil in Hin.
  - intros [= <- <-].
    assert (existing ∈ filter (same_reaction messageId userId emoji) table)
      as [Hsame Hin]%list_elem_of_filter by (rewrite Hf; left).
    split; [by apply same_reaction_eq|]. split; [|split; [|done]].
    + intros x. split; [by left|]. by intros [?| ->].
    + by rewrite Hf.
Qed.

Lemma add_reaction_is_idempotent_witness :
  addReaction reactions_db "m1" "A" "+1" [mkReaction "m1" "A" "+1"]
  = inr ([mkReaction "m1" "A" "+1"], mkReaction "m1" "A" "+1").
Proof.
  apply (add_reaction_is_idempotent reactions_db "m1" "A" "+1" []). by vm_compute.
Defined.

(** X19: [removeReaction] deletes exactly the rows of one message, user
    and emoji: every other row stays, in order; and it undoes an
    [addReaction] that made a row. *)
Theorem remove_reaction_removes_one_triple
    (db : Storage) (messageId userId emoji : string) (table : list Reaction) :
  (forall x,
     x ∈ removeReaction messageId userId emoji table <->
     x ∈ table /\ x <> mkReaction messageId userId emoji) /\
  (mkReaction messageId userId emoji ∉ table ->
   forall table' r,
     addReaction db messageId userId emoji table = inr (table', r) ->
     removeReaction messageId userId emoji table' = table).
Proof.
  unfold removeReaction. split.
  - intros x. rewrite list_elem_of_filter, same_reaction_eq. tauto.
  - intros Hnew table' r. unfold addReaction.
    assert (filter (same_reaction messageId userId emoji) table = []) as ->.
    { destruct (filter _ table) as [|x rest] eqn:Hf; [done|].
      assert (x ∈ filter (same_reaction messageId userId emoji) table)
        as [Hsame%same_reaction_eq Hin]%list_elem_of_filter by (rewrite Hf; left).
      by subst x. }
    destruct (messages db !! messageId); [|done].
    destruct (users db !! userId); [|done].
    intros [= <- <-]. rewrite filter_app, filter_cons_False, filter_nil, app_nil_r.
    + apply filter_all. intros x Hx ->%same_reaction_eq. done.
    + intros Hnot. apply Hnot. done.
Qed.

Lemma group_count_count_row e e' groups :
  group_count e' (count_row e groups)
  = if decide (e' = e) then Some (S (default 0%nat (group_count e groups)))
    else group_count e' groups.
Proof.
  induction groups as [|[e0 n] groups IH]; cbn [count_row group_count].
  - case_decide; case_decide; try done; congruence.
  - destruct (decide (e0 = e)) as [->|Hne]; cbn [group_count]; rewrite ?IH;
      repeat case_decide; subst; try done; congruence.
Qed.

Lemma keys_count_row e groups :
  (count_row e groups).*1 = if decide (e ∈ groups.*1) then groups.*1 else groups.*1 ++ [e].
Proof.
  induction groups as [|[e0 n] groups IH]; cbn [count_row fmap list_fmap fst].
  - by rewrite decide_False by apply not_elem_of_nil.
  - destruct (decide (e0 = e)) as [->|Hne]; cbn [fmap list_fmap fst].
    + by rewrite decide_True by left.
    + fold (fmap (M := list) (@fst string nat)). rewrite IH.
      destruct (decide (e ∈ groups.*1)) as [Hin|Hout].
      * by rewrite decide_True by by right.
      * rewrite decide_False; [done|]. rewrite not_elem_of_cons. split; [congruence|done].
Qed.

Lemma count_row_NoDup e groups : NoDup groups.*1 -> NoDup (count_row e groups).*1.
Proof.
  intros Hnd. rewrite keys_count_row. case_decide as Hin; [done|].
  apply NoDup_app. split; [done|]. split; [|apply NoDup_singleton].
  by intros x Hx ->%list_elem_of_singleton.
Qed.

Lemma group_by_from_NoDup rows groups :
  NoDup groups.*1 ->
  NoDup (foldl (fun groups r => count_row (x_emoji r) groups) groups rows).*1.
Proof.
  revert groups. induction rows as [|r rows IH]; intros groups Hnd; [done|].
  cbn [foldl]. apply IH. by apply count_row_NoDup.
Qed.

Lemma group_by_from_count e rows groups :
  group_count e (foldl (fun groups r => count_row (x_emoji r) groups) groups rows)
  = match length (filter (fun r => x_emoji r = e) rows) with
    | O => group_count e groups
    | S n => Some (default 0%nat (group_count e groups) + S n)%nat
    end.
Proof.
  revert groups. induction rows as [|r rows IH]; intros groups; [done|].
  cbn [foldl]. rewrite IH, filter_cons, group_count_count_row.
  destruct (decide (x_emoji r = e)) as [->|Hne].
  - rewrite decide_True by done. cbn [length default].
    destruct (length (filter _ rows)); unfold id; f_equal; lia.
  - by rewrite decide_False by congruence.
Qed.

Lemma elem_of_groups e n groups :
  NoDup groups.*1 -> (e, n) ∈ groups <-> group_count e groups = Some n.
Proof.
  induction groups as [|[e0 n0] groups IH]; intros Hnd; cbn [group_count].
  - split; [by intros ?%elem_of_nil|done].
  - cbn in Hnd. apply NoDup_cons in Hnd as [Hout Hnd]. rewrite elem_of_cons, IH by done.
    destruct (decide (e0 = e)) as [->|Hne].
    + split.
      * intros [[= ->]|Hc]; [done|]. exfalso. apply Hout.
        apply list_elem_of_fmap. exists (e, n). split; [done|]. by apply IH.
      * intros [= ->]. by left.
    + split; [|by right]. intros [[= ? ?]|?]; [congruence|done].
Qed.

Lemma reaction_count_keys (groups : list (string * nat)) :
  map rc_emoji (map (fun g => mkReactionCount g.1 g.2 false) groups) = groups.*1.
Proof. induction groups as [|g groups IH]; [done|]. cbn. by f_equal. Qed.

(** X20: [getMessageReactions] reports each emoji used on the message
    once, with the number of reaction rows the message has for it, which is
    at least one; emojis nobody used do not appear, reactions to other
    messages are not counted, and [userReacted] is always false. *)
Theorem reaction_counts_are_exact (messageId : string) (table : list Reaction) :
  let rows emoji :=
    filter (fun r => x_messageId r = messageId /\ x_emoji r = emoji) table in
  NoDup (map rc_emoji (getMessageReactions messageId table)) /\
  forall rc,
    rc ∈ getMessageReactions messageId table <->
    rc_userReacted rc = false /\ (0 < rc_count rc)%nat /\
    rc_count rc = length (rows (rc_emoji rc)).
Proof.
  intros rows. unfold getMessageReactions, group_by_emoji.
  set (mine := filter (fun r => x_messageId r = messageId) table).
  assert (NoDup (foldl (fun groups r => count_row (x_emoji r) groups) [] mine).*1) as Hnd
    by apply group_by_from_NoDup, NoDup_nil_2.
  assert (forall e, length (filter (fun r => x_emoji r = e) mine) = length (rows e)) as Hlen.
  { intros e. subst mine rows. cbn beta. rewrite list_filter_filter. f_equal.
    apply list_filter_iff. intros r. tauto. }
  split.
  - by rewrite reaction_count_keys.
  - intros [e n b]. cbn [rc_emoji rc_count rc_userReacted]. rewrite elem_of_map. split.
    + intros ([e' n'] & Heq & Hin). cbn [fst snd] in Heq. injection Heq as -> -> ->.
      apply elem_of_groups in Hin; [|done]. rewrite group_by_from_count, Hlen in Hin.
      destruct (length (rows e')) as [|k]; [done|]. cbn in Hin. injection Hin as <-.
      split; [done|]. split; lia.
    + intros (-> & Hpos & ->). exists (e, length (rows e)). split; [done|].
      apply elem_of_groups; [done|]. rewrite group_by_from_count, Hlen.
      destruct (length (rows e)) as [|k]; [lia|]. done.
Qed.

(** * Invite links *)

Lemma head_filter_elem {A} (P : A -> Prop) `{forall x, Decision (P x)} (l : list A) x :
  head (filter P l) = Some x -> x ∈ l /\ P x.
Proof.
  intros Hh. destruct (filter P l) as [|y rest] eqn:Hf; [done|]. injection Hh as ->.
  assert (x ∈ filter P l) as [? ?]%list_elem_of_filter by (rewrite Hf; left). done.
Qed.

Lemma map_l_id_use linkId (count : option Z) (links : list InviteLink) :
  map l_id
    (map (fun l =>
            if decide (l_id l = linkId)
            then mkInviteLink (l_id l) (l_conversationId l) (l_token l) (l_createdById l)
                   (l_expiresAt l) (l_maxUses l) count (l_isActive l)
            else l) links)
  = map l_id links.
Proof.
  induction links as [|l links IH]; [done|]. cbn [map]. rewrite IH. f_equal.
  by case_decide.
Qed.

Lemma map_l_id_deactivate linkId (links : list InviteLink) :
  map l_id
    (map (fun l =>
            if decide (l_id l = linkId)
            then mkInviteLink (l_id l) (l_conversationId l) (l_token l) (l_createdById l)
                   (l_expiresAt l) (l_maxUses l) (l_useCount l) false
            else l) links)
  = map l_id links.
Proof.
  induction links as [|l links IH]; [done|]. cbn [map]. rewrite IH. f_equal.
  by case_decide.
Qed.

Lemma NoDup_l_id_eq (links : list InviteLink) l l' :
  NoDup (map l_id links) -> l ∈ links -> l' ∈ links -> l_id l = l_id l' -> l = l'.
Proof.
  induction links as [|l0 links IH]; [by intros _ ?%elem_of_nil|].
  cbn [map]. intros [Hout Hnd]%NoDup_cons [->|Hl]%elem_of_cons [->|Hl']%elem_of_cons Hid.
  - done.
  - exfalso. apply Hout. apply elem_of_map. by exists l'.
  - exfalso. apply Hout. apply elem_of_map. exists l. by rewrite Hid.
  - by apply IH.
Qed.

(** X21: a link is never used more often than its limit.  Creating a
    link, joining by a link and deactivating a link each keep the link ids
    distinct and every use count at or below the link's maxUses (at 0 for a
    limit that is not positive); the empty table has the property. *)
Theorem invite_limit_is_kept :
  (forall db, links_ok (mkInviteStore db [])) /\
  (forall conversationId createdById expiresAt maxUses uuid token s s' l,
     createInviteLink conversationId createdById expiresAt maxUses uuid token s
       = inr (s', l) ->
     links_ok s -> links_ok s') /\
  (forall token userId now s s' joined,
     useInviteLink token userId now s = inr (s', joined) ->
     links_ok s -> links_ok s') /\
  (forall linkId s, links_ok s -> links_ok (deactivateInviteLink linkId s)).
Proof.
  split; [|split; [|split]].
  - intros db. split; [apply NoDup_nil_2|apply Forall_nil_2].
  - intros conversationId createdById expiresAt maxUses uuid token s s' l.
    unfold createInviteLink.
    destruct (negb (fits_int4 (or_null maxUses))); [done|].
    destruct (bool_decide (uuid ∈ map l_id (i_links s))) eqn:Hid; [done|].
    destruct (bool_decide (token ∈ map l_token (i_links s))); [done|].
    destruct (negb _); [done|].
    destruct (users (i_db s) !! createdById); [|done].
    intros [= <- <-] [Hnd Hok]. split; cbn [i_links].
    + rewrite map_app. apply NoDup_app. split; [done|]. split; [|apply NoDup_singleton].
      intros x Hx ->%list_elem_of_singleton.
      by apply bool_decide_eq_false_1 in Hid.
    + apply Forall_app. split; [done|]. apply Forall_singleton.
      exists 0%Z. split; [done|]. intros m _. lia.
  - intros token userId now s s' joined. unfold useInviteLink.
    destruct (getInviteLinkByToken token s) as [l|] eqn:Hl; [|by intros [= <- <-]].
    destruct (negb (l_isActive l)); [by intros [= <- <-]|].
    destruct (expired l now); [by intros [= <- <-]|].
    destruct (exhausted l) eqn:Hex; [by intros [= <- <-]|].
    destruct (in_conversation _ _ _); [by intros [= <- <-]|].
    destruct (negb _); [done|].
    destruct (users (i_db s) !! userId); [|done].
    intros [= <- <-] [Hnd Hok]. split; cbn [i_links].
    + by rewrite map_l_id_use.
    + apply head_filter_elem in Hl as [Hin _].
      apply Forall_forall. intros l' (l0 & -> & Hl0)%elem_of_map.
      rewrite Forall_forall in Hok. case_decide as Hsame; [|by apply Hok].
      assert (l0 = l) as -> by by apply (NoDup_l_id_eq (i_links s)).
      destruct (Hok l Hin) as (c & Hc & Hlim). unfold link_ok. cbn.
      eexists. split; [done|]. intros m Hm. specialize (Hlim m Hm).
      unfold exhausted in Hex. rewrite Hm, Hc in Hex.
      apply bool_decide_eq_false_1 in Hex. rewrite Hc. unfold or_null.
      case_decide; cbn; lia.
  - intros linkId s [Hnd Hok]. split; cbn [deactivateInviteLink i_links].
    + by rewrite map_l_id_deactivate.
    + apply Forall_forall. intros l' (l0 & -> & Hl0)%elem_of_map.
      rewrite Forall_forall in Hok. case_decide; [|by apply Hok].
      destruct (Hok l0 Hl0) as (c & Hc & Hlim). by exists c.
Qed.

(** X22: a link that is unknown, deactivated, past its expiry or used
    up lets nobody in: [useInviteLink] answers null and leaves links and
    participants as they were. *)
Theorem refused_link_changes_nothing
    (token userId : string) (now : Z) (s : InviteStore) :
  (getInviteLinkByToken token s = None \/
   exists l, getInviteLinkByToken token s = Some l /\
             (l_isActive l = false \/
              (exists expiresAt, l_expiresAt l = Some expiresAt /\ (expiresAt < now)%Z) \/
              (exists maxUses useCount,
                 l_maxUses l = Some maxUses /\ l_useCount l = Some useCount /\
                 (maxUses <= useCount)%Z))) ->
  useInviteLink token userId now s = inr (s, None).
Proof.
  unfold useInviteLink.
  intros [->|(l & -> & Hwhy)]; [done|].
  destruct (l_isActive l) eqn:Hact; cbn [negb]; [|done].
  destruct (expired l now) eqn:Hexp; [done|].
  destruct (exhausted l) eqn:Hex; [done|].
  exfalso. destruct Hwhy as [?|[(e & He & Hlt)|(m & c & Hm & Hc & Hle)]]; [done| |].
  - unfold expired in Hexp. rewrite He in Hexp. by apply bool_decide_eq_false_1 in Hexp.
  - unfold exhausted in Hex. rewrite Hm, Hc in Hex. by apply bool_decide_eq_false_1 in Hex.
Qed.

Lemma refused_link_changes_nothing_witness :
  useInviteLink "t1" "C" 9001 invite_store = inr (invite_store, None).
Proof.
  apply refused_link_changes_nothing. right. eexists. split; [by vm_compute|].
  right. left. exists 9000%Z. split; [done|]. lia.
Defined.




(** X24: creating a link and finding it by its token.  A link made for
    an existing conversation by an existing user, with an unused id and
    token, is stored active with use count 0 and is the link its token
    finds; a maxUses of 0 is stored as no limit, so that link is never used
    up. *)
Theorem created_link_is_found
    (conversationId createdById : string) (expiresAt maxUses : option Z)
    (uuid token : string) (s s' : InviteStore) (l : InviteLink) :
  createInviteLink conversationId createdById expiresAt maxUses uuid token s = inr (s', l) ->
  getInviteLinkByToken token s' = Some l /\
  l = mkInviteLink uuid conversationId token createdById expiresAt
        (if decide (maxUses = Some 0%Z) then None else maxUses) (Some 0%Z) true /\
  (maxUses = Some 0%Z \/ maxUses = None -> exhausted l = false) /\
  i_links s' = i_links s ++ [l] /\ i_db s' = i_db s.
Proof.
  unfold createInviteLink.
  destruct (negb (fits_int4 (or_null maxUses))); [done|].
  destruct (bool_decide (uuid ∈ map l_id (i_links s))); [done|].
  destruct (bool_decide (token ∈ map l_token (i_links s))) eqn:Htok; [done|].
  destruct (negb _); [done|].
  destruct (users (i_db s) !! createdById); [|done].
  intros [= <- <-]. apply bool_decide_eq_false_1 in Htok.
  assert (or_null maxUses = if decide (maxUses = Some 0%Z) then None else maxUses) as Hlim.
  { unfold or_null. destruct maxUses as [n|]; [|done].
    destruct (decide (n = 0%Z)) as [->|Hn]; [done|]. rewrite decide_False; [done|].
    by intros [= ->]. }
  split; [|split; [by rewrite Hlim|split; [|done]]].
  - unfold getInviteLinkByToken. cbn [i_links]. rewrite filter_app.
    assert (filter (fun l => l_token l = token) (i_links s) = []) as ->.
    { destruct (filter _ (i_links s)) as [|x rest] eqn:Hf; [done|].
      assert (x ∈ filter (fun l => l_token l = token) (i_links s))
        as [Hx Hin]%list_elem_of_filter by (rewrite Hf; left).
      exfalso. apply Htok. apply elem_of_map. by exists x. }
    by rewrite filter_cons_True.
  - unfold exhausted. cbn [l_maxUses]. rewrite Hlim.
    intros [->| ->]; done.
Qed.

Lemma created_link_is_found_witness :
  exists s' l,
    createInviteLink "c1" "A" None (Some 0%Z) "l2" "t2" invite_store = inr (s', l) /\
    getInviteLinkByToken "t2" s' = Some l /\ exhausted l = false.
Proof.
  destruct (createInviteLink "c1" "A" None (Some 0%Z) "l2" "t2" invite_store)
    as [e|[s' l]] eqn:Hc; [by vm_compute in Hc|].
  exists s', l. split; [done|].
  destruct (created_link_is_found _ _ _ _ _ _ _ _ _ Hc) as (Hfound & _ & Hex & _).
  split; [done|]. apply Hex. by left.
Defined.

(** X25: a deactivated link lets nobody in: after
    [deactivateInviteLink] on the link a token finds, [useInviteLink] with
    that token answers null and changes nothing. *)
Theorem deactivated_link_is_refused
    (token userId : string) (now : Z) (s : InviteStore) (l : InviteLink) :
  getInviteLinkByToken token s = Some l ->
  let s' := deactivateInviteLink (l_id l) s in
  useInviteLink token userId now s' = inr (s', None).
Proof.
  intros Hl s'. unfold useInviteLink.
  assert (exists l', getInviteLinkByToken token s' = Some l' /\ l_isActive l' = false)
    as (l' & -> & ->); [|done].
  subst s'. unfold getInviteLinkByToken, deactivateInviteLink in *. cbn [i_links].
  revert Hl. generalize (i_links s). intros links.
  induction links as [|l0 links IH]; [by cbn|]. cbn [map]. rewrite !filter_cons.
  destruct (decide (l_token l0 = token)) as [Ht|Ht].
  - cbn [head]. intros [= ->]. rewrite (decide_True (P := l_id l = l_id l)) by done.
        cbn [l_token].
    rewrite decide_True by done. cbn [head]. by eexists.
  - intros Hrest.
    assert (l_token (if decide (l_id l0 = l_id l)
        then mkInviteLink (l_id l0) (l_conversationId l0) (l_token l0) (l_createdById l0)
               (l_expiresAt l0) (l_maxUses l0) (l_useCount l0) false
        else l0) ≠ token) as Ht' by by case_decide.
    rewrite decide_False by done. by apply IH.
Qed.

Lemma deactivated_link_is_refused_witness :
  useInviteLink "t1" "C" 5000 (deactivateInviteLink "l1" invite_store)
  = inr (deactivateInviteLink "l1" invite_store, None).
Proof.
  apply (deactivated_link_is_refused "t1" "C" 5000 invite_store
           (mkInviteLink "l1" "c1" "t1" "A" (Some 9000%Z) (Some 1%Z) (Some 0%Z) true)).
  by vm_compute.
Defined.

(** * Binding and starting *)

(** X26: user-online binds and announces.  A user-online frame with a
    userId binds the connection to it, registers the socket for it, stamps
    the user's row online at [now], and emits one user-status-changed
    broadcast with status online whose recipients are the user's contacts:
    the identities, each once and never the user itself, that have a
    participant row and a user row in a conversation the user has a row
    in. *)
Theorem user_online_binds_and_announces
    (h : Hub) (ws : nat) (u : string) (p : Payload) (now : Z) (uuid : string) :
  p_userId p = Some u -> u <> "" ->
  let r := handle (Frame ws (Some (PValue (Some "user-online") (Some p))) now uuid) h in
  let h' := state_of r in
  userId_of h' !! ws = Some u /\
  clients h' !! u = Some ws /\
  users (storage h') !! u
    = (fun usr => mkUser (u_username usr) online (Some now) (Some now))
        <$> users (storage h) !! u /\
  (exists contactIds,
     broadcasts (effects_of r)
       = [(contactIds, mkEnvelope "user-status-changed" (UserStatusChanged u online))] /\
     NoDup contactIds /\ (u ∉ contactIds) /\
     contactIds = contacts_of u (conversations_of (storage h') u) /\
     forall x,
       x ∈ contactIds <->
       x <> u /\
       exists conv mine theirs,
         conv ∈ conversations (storage h) /\
         mine ∈ conversationParticipants (storage h) /\
         cp_conversationId mine = conv /\ cp_userId mine = u /\
         theirs ∈ conversationParticipants (storage h) /\
         cp_conversationId theirs = conv /\ cp_userId theirs = x /\
         is_Some (users (storage h) !! x)) /\
  outcome_of r = inr tt.
Proof.
  intros Hp Hu r h'. subst h' r. unfold handle.
  rewrite (on_message_live ws "user-online" (Some p) now uuid h
             (case_user_online ws (Some p) now)) by live_case.
  rewrite (case_user_online_eq ws p now h u) by done.
  cbn [state_of effects_of outcome_of fst snd]. rewrite app_nil_r.
  split; [|split; [|split; [|split; [|done]]]].
  - project. apply lookup_insert_eq.
  - project. apply lookup_insert_eq.
  - project. by rewrite lookup_alter_eq.
  - eexists. split; [|split; [|split; [|split; [done|]]]].
    + cbn [broadcasts omap list_omap]. by rewrite broadcasts_map_send.
    + apply contacts_of_NoDup.
    + apply contacts_of_not_self.
    + intros x. apply elem_of_contacts_after_status.
Qed.

Lemma user_online_binds_and_announces_witness :
  let r := handle (Frame 3 (Some (PValue (Some "user-online")
                     (Some (Scenario.user_online "B")))) 5000 "k2") Scenario.ringing_hub in
  broadcasts (effects_of r)
  = [(["A"], mkEnvelope "user-status-changed" (UserStatusChanged "B" online))].
Proof.
  intros r.
  destruct (user_online_binds_and_announces Scenario.ringing_hub 3 "B"
              (Scenario.user_online "B") 5000 "k2" eq_refl)
    as (_ & _ & _ & (contactIds & Hb & _ & _ & Hc & _) & _); [done|].
  fold r in Hb. rewrite Hb. subst contactIds. by vm_compute.
Defined.

(** X27: a start-call that names a conversation the store does not have
    creates nothing: the insert of the call is refused for its conversation
    reference, the error is logged, and the hub is as before; no
    incoming-call is emitted. *)
Theorem start_call_in_unknown_conversation_fails
    (h : Hub) (ws : nat) (u conv : string) (p : Payload) (now : Z) (uuid : string) :
  userId_of h !! ws = Some u -> u <> "" ->
  p_conversationId p = Some conv -> conv <> "" ->
  conv ∉ conversations (storage h) ->
  calls (storage h) !! uuid = None ->
  handle (Frame ws (Some (PValue (Some "start-call") (Some p))) now uuid) h
  = (h, [ConsoleError (DbError "calls_conversation_id_fkey")], inr tt).
Proof.
  intros Hws Hu Hp Hconv Hunknown Hfresh. unfold handle.
  rewrite (on_message_live ws "start-call" (Some p) now uuid h
             (case_start_call ws (Some p) now uuid)) by live_case.
  unfold case_start_call. rewrite (if_bound_and_run _ _ _ _ _ u conv) by done.
  exec. rewrite Hfresh, (bool_decide_eq_false_2 _ Hunknown).
  by destruct (users (storage h) !! u).
Qed.

Lemma start_call_in_unknown_conversation_fails_witness :
  handle (Frame 1 (Some (PValue (Some "start-call")
            (Some (Scenario.in_conversation "c9" None)))) 5000 "k2") Scenario.ringing_hub
  = (Scenario.ringing_hub, [ConsoleError (DbError "calls_conversation_id_fkey")], inr tt).
Proof.
  apply (start_call_in_unknown_conversation_fails Scenario.ringing_hub 1 "A" "c9");
    try by vm_compute.
  apply (bool_decide_unpack _). by vm_compute.
Defined.

Lemma frames_go_to_open_sockets_witness :
  let ev := Frame 1 (Some (PValue (Some "typing")
                      (Some (Scenario.in_conversation "c1" (Some true))))) 5000 "k2" in
  let f := mkEnvelope "typing-status" (TypingStatus "c1" "A" (Some true)) in
  (2%nat, f) ∈ sends (effects_of (handle ev Scenario.ringing_hub)) /\
  readyState (state_of (handle ev Scenario.ringing_hub)) !! 2%nat = Some OPEN.
Proof.
  intros ev f.
  assert ((2%nat, f) ∈ sends (effects_of (handle ev Scenario.ringing_hub))) as Hin.
  { assert (sends (effects_of (handle ev Scenario.ringing_hub)) = [(2%nat, f)]) as ->
      by (by vm_compute).
    by left. }
  split; [exact Hin|]. exact (frames_go_to_open_sockets ev Scenario.ringing_hub 2 f Hin).
Defined.

(** * Accepting, ending and closing *)

Lemma case_accept_call_eq ws p now h u usr callId c :
  userId_of h !! ws = Some u -> u <> "" ->
  users (storage h) !! u = Some usr ->
  p_callId p = Some callId -> callId <> "" ->
  calls (storage h) !! callId = Some c ->
  let h' :=
    with_storage (with_calls
        (alter (apply_patch (mkCallPatch (Some active) (Some now) None None)) callId))
      (with_storage (with_callParticipants
         (fun rows => rows ++ [mkCallParticipant callId u (Some now) None false false false]))
         h) in
  case_accept_call ws (Some p) now h
  = (h',
     match truthy (c_conversationId c) with
     | Some conversationId =>
         let userIds := recipients (participants_of (storage h) conversationId) None in
         Broadcast userIds (mkEnvelope "call-accepted" (CallAccepted callId u))
         :: map (fun client =>
                   Send client (mkEnvelope "call-accepted" (CallAccepted callId u)))
              (delivered h userIds)
     | None => []
     end,
     inr tt).
Proof.
  intros Hws Hu Husr Hp Hid Hc h'. unfold case_accept_call.
  rewrite (if_bound_and_run _ _ _ _ _ u callId) by done.
  exec_under ltac:(rewrite ?Hc, ?Husr).
  destruct (truthy (c_conversationId c)); exec; done.
Qed.

(** X28: accept-call and end-call tell the whole conversation.  For an
    existing call with a conversation, the accept-call of a bound, existing
    user emits one call-accepted broadcast naming the call and the
    accepter, and the end-call of a bound connection whose duration fits
    the integer column emits one call-ended broadcast naming the call, who
    ended it and the stored duration; in both the recipients are all
    participants of the call's conversation, the sender included.  A call
    without conversation emits nothing, and neither does an end-call whose
    duration the column cannot hold. *)
Theorem accept_and_end_notify_everyone
    (h : Hub) (ws : nat) (u callId : string) (c : Call) (p : Payload)
    (now : Z) (uuid : string) :
  userId_of h !! ws = Some u -> u <> "" ->
  p_callId p = Some callId -> callId <> "" ->
  calls (storage h) !! callId = Some c ->
  let everyone conversationId :=
    map (fun row => cp_userId row.1) (participants_of (storage h) conversationId) in
  let notified type out :=
    broadcasts (effects_of
      (handle (Frame ws (Some (PValue (Some type) (Some p))) now uuid) h))
    = match truthy (c_conversationId c) with
      | Some conversationId => [(everyone conversationId, mkEnvelope out.1 out.2)]
      | None => []
      end in
  (is_Some (users (storage h) !! u) ->
   notified "accept-call" ("call-accepted", CallAccepted callId u)) /\
  (int4 (duration_at now c) ->
   notified "end-call" ("call-ended", CallEnded callId u (duration_at now c))) /\
  (~ int4 (duration_at now c) ->
   broadcasts (effects_of
     (handle (Frame ws (Some (PValue (Some "end-call") (Some p))) now uuid) h)) = []).
Proof.
  intros Hws Hu Hp Hid Hc everyone notified. subst everyone notified. cbn beta.
  unfold handle. split; [|split].
  - intros [usr Husr].
    rewrite (on_message_live ws "accept-call" (Some p) now uuid h
               (case_accept_call ws (Some p) now)) by live_case.
    rewrite (case_accept_call_eq ws p now h u usr callId c) by done.
    cbn [effects_of fst snd]. rewrite app_nil_r.
    destruct (truthy (c_conversationId c)); [|done].
    cbn [broadcasts omap list_omap fst snd]. by rewrite broadcasts_map_send, recipients_all.
  - intros Hfit.
    rewrite (on_message_live ws "end-call" (Some p) now uuid h
               (case_end_call ws (Some p) now)) by live_case.
    rewrite (case_end_call_eq ws p now h u callId c) by done.
    rewrite decide_True by done.
    cbn [effects_of fst snd]. rewrite app_nil_r.
    destruct (truthy (c_conversationId c)); [|done].
    cbn [broadcasts omap list_omap fst snd]. by rewrite broadcasts_map_send, recipients_all.
  - intros Hout.
    rewrite (on_message_live ws "end-call" (Some p) now uuid h
               (case_end_call ws (Some p) now)) by live_case.
    rewrite (case_end_call_eq ws p now h u callId c) by done.
    by rewrite decide_False by done.
Qed.

Lemma accept_and_end_notify_everyone_witness :
  broadcasts (effects_of
    (handle (Frame 1 (Some (PValue (Some "end-call") (Some (Scenario.on_call "k1"))))
               9500 "k2") Scenario.ringing_hub))
  = [(["A"; "B"], mkEnvelope "call-ended" (CallEnded "k1" "A" 0))].
Proof.
  assert (userId_of Scenario.ringing_hub !! 1%nat = Some "A") as Hws by (by vm_compute).
  assert (calls (storage Scenario.ringing_hub) !! "k1"
          = Some (mkCall (Some "c1") "A" voice initiated None None None)) as Hc
    by (by vm_compute).
  pose proof (proj1 (proj2 (accept_and_end_notify_everyone Scenario.ringing_hub 1 "A" "k1"
                       (mkCall (Some "c1") "A" voice initiated None None None)
                       (Scenario.on_call "k1") 9500 "k2"
                       Hws ltac:(done) eq_refl ltac:(done) Hc))) as Hend.
  cbv zeta beta in Hend. rewrite Hend; [by vm_compute|].
  apply (bool_decide_unpack _). vm_compute. exact I.
Defined.

(** X29: close unbinds and announces.  When a connection closes, its
    socket is closed in the hub; if it was bound to an identity, that
    identity's registry entry is removed whichever socket it named, the
    other entries stay, the user's row is stamped offline at the time of
    the event, and one user-status-changed broadcast with status offline
    goes to the user's contacts: the identities, each once and never the
    user itself, that have a participant row and a user row in a
    conversation the user has a row in.  A connection that was never bound
    closes without any other change. *)
Theorem close_unbinds_and_announces (h : Hub) (ws : nat) (now : Z) :
  let r := handle (Close ws now) h in
  let h' := state_of r in
  readyState h' = <[ws := CLOSED]> (readyState h) /\
  userId_of h' = userId_of h /\
  outcome_of r = inr tt /\
  match truthy (userId_of h !! ws) with
  | Some u =>
      clients h' = delete u (clients h) /\
      storage h'
        = with_users
            (alter (fun usr => mkUser (u_username usr) offline (Some now) (Some now)) u)
            (storage h) /\
      exists contactIds,
        broadcasts (effects_of r)
          = [(contactIds, mkEnvelope "user-status-changed" (UserStatusChanged u offline))] /\
        NoDup contactIds /\ (u ∉ contactIds) /\
        contactIds = contacts_of u (conversations_of (storage h') u) /\
        forall x,
          x ∈ contactIds <->
          x <> u /\
          exists conv mine theirs,
            conv ∈ conversations (storage h) /\
            mine ∈ conversationParticipants (storage h) /\
            cp_conversationId mine = conv /\ cp_userId mine = u /\
            theirs ∈ conversationParticipants (storage h) /\
            cp_conversationId theirs = conv /\ cp_userId theirs = x /\
            is_Some (users (storage h) !! x)
  | None =>
      clients h' = clients h /\ storage h' = storage h /\ effects_of r = []
  end.
Proof.
  cbn zeta. unfold handle. rewrite bind_update.
  destruct (truthy (userId_of h !! ws)) as [u|] eqn:Hu.
  - apply truthy_inv in Hu as [Hws Hne].
    rewrite (on_close_eq ws now _ u) by done.
    cbn [state_of effects_of outcome_of fst snd].
    repeat split; try done.
    eexists. split; [|split; [|split; [|split; [done|]]]].
    + cbn [broadcasts omap list_omap]. by rewrite broadcasts_map_send.
    + apply contacts_of_NoDup.
    + apply contacts_of_not_self.
    + intros x. apply elem_of_contacts_after_status.
  - unfold on_close. rewrite bind_read.
    change (userId_of (with_readyState <[ws:=CLOSED]> h)) with (userId_of h).
    rewrite Hu. done.
Qed.

(** Bob's socket closes: his registry entry goes, and Alice, his one
    contact, is told. *)
Lemma close_unbinds_and_announces_witness :
  clients (state_of (handle (Close 2 5000) Scenario.ringing_hub))
  = delete "B" (clients Scenario.ringing_hub) /\
  broadcasts (effects_of (handle (Close 2 5000) Scenario.ringing_hub))
  = [(["A"], mkEnvelope "user-status-changed" (UserStatusChanged "B" offline))].
Proof.
  pose proof (close_unbinds_and_announces Scenario.ringing_hub 2 5000) as H.
  cbv zeta in H. destruct H as (_ & _ & _ & H).
  assert (truthy (userId_of Scenario.ringing_hub !! 2%nat) = Some "B") as Hu
    by (by vm_compute).
  rewrite Hu in H. destruct H as (Hc & _ & contactIds & Hb & _ & _ & -> & _).
  split; [exact Hc|]. rewrite Hb. by vm_compute.
Defined.
